(** * DSMR P1 telegram reader: a shallow embedding of [telegram_from_serial.py]

    The script reads lines from a serial port until a line starting with an
    exclamation mark closes the telegram, computes a CRC16 over the text in
    front of the first exclamation mark, decodes every line with a regular
    expression and publishes each decoded value on an MQTT topic.

    Text is modelled as [string]; a character stands for a Unicode code point
    in the range U+0000..U+00FF (a DSMR telegram is plain ASCII).  Integers are
    [Z], as Python integers are unbounded; the 16-bit CRC register is a [Z]
    kept below [2^16] by the shifts of the algorithm. *)

From Stdlib Require Import String Ascii List ZArith Lia Bool.
Import ListNotations.

Local Open Scope string_scope.
Local Open Scope list_scope.

(** ** Python string operations used by the script *)

Module PyStr.

(** [str.isspace] on one character, for code points below 256:
    U+0009..U+000D, U+001C..U+0020, U+0085 and U+00A0. *)
Definition is_space (c : ascii) : bool :=
  let n := nat_of_ascii c in
  ((9 <=? n) && (n <=? 13) || (28 <=? n) && (n <=? 32)
   || (n =? 133) || (n =? 160))%nat.

Fixpoint lstrip (s : string) : string :=
  match s with
  | EmptyString => EmptyString
  | String c t => if is_space c then lstrip t else s
  end.

Fixpoint rstrip (s : string) : string :=
  match s with
  | EmptyString => EmptyString
  | String c t =>
      match rstrip t with
      | EmptyString => if is_space c then EmptyString else String c EmptyString
      | r => String c r
      end
  end.

(** [s.strip()] *)
Definition strip (s : string) : string := rstrip (lstrip s).

(** [s.startswith(p)] *)
Definition startswith (s p : string) : bool := prefix p s.

(** Truth value of a string: the empty string is false. *)
Definition truthy (s : string) : bool :=
  match s with EmptyString => false | String _ _ => true end.

(** [s[n:]] *)
Fixpoint slice_from (n : nat) (s : string) : string :=
  match n, s with
  | O, _ => s
  | S _, EmptyString => EmptyString
  | S k, String _ t => slice_from k t
  end.

(** [s.replace(old, new)] where [old] and [new] are one character each. *)
Fixpoint replace (old new : ascii) (s : string) : string :=
  match s with
  | EmptyString => EmptyString
  | String c t =>
      String (if Ascii.eqb c old then new else c) (replace old new t)
  end.

(** [s.split(sep)] for a non-empty separator: the pieces between the
    non-overlapping occurrences of [sep], found from left to right.  [skip]
    counts the characters of an occurrence that are still to be passed. *)
Fixpoint split_from (sep : string) (skip : nat) (s : string) : list string :=
  match s with
  | EmptyString => [EmptyString]
  | String c t =>
      match skip with
      | S k => split_from sep k t
      | O =>
          if prefix sep s
          then EmptyString :: split_from sep (String.length sep - 1) t
          else match split_from sep 0 t with
               | p :: ps => String c p :: ps
               | [] => [String c EmptyString]
               end
      end
  end.

Definition split (s sep : string) : list string := split_from sep 0 s.

End PyStr.

Import PyStr.

(** ** The framing loop (source lines 111-123) *)

(** What one [ser.readline()] followed by [str(raw_line, 'utf-8')] gives: the
    decoded text, or an exception (a serial error or undecodable bytes).  A
    read that times out returns no bytes, which is [Recv ""]. *)
Inductive read_event : Type :=
| Recv (raw : string)
| ReadExn.

Record framer : Type := mkFramer {
  telegram : string;
  checksum_found : bool
}.

Definition framer_init : framer := mkFramer "" false.

Definition CRLF : string := String "013" (String "010" EmptyString).

(** The body of the loop once the line is read and stripped. *)
Definition feed (st : framer) (telegram_line : string) : framer :=
  if startswith telegram_line "!"
  then mkFramer (telegram st ++ telegram_line) true
  else if truthy telegram_line
       then mkFramer (telegram st ++ (telegram_line ++ CRLF)) (checksum_found st)
       else st.

Inductive loop_result : Type :=
| Completed (t : string) (rest : list read_event)
| Interrupted (t : string) (rest : list read_event)
| Waiting (t : string).

(** [while not checksum_found: ...] inside the [try]; the input is the finite
    part of the stream known so far, and [Waiting] says that the loop is still
    reading when it is used up. *)
Fixpoint read_loop (st : framer) (input : list read_event) : loop_result :=
  if checksum_found st then Completed (telegram st) input
  else
    match input with
    | [] => Waiting (telegram st)
    | ReadExn :: rest => Interrupted (telegram st) rest
    | Recv raw_line :: rest => read_loop (feed st (strip raw_line)) rest
    end.

(** ** CRC16 ([crcmod.predefined.mkPredefinedCrcFun('crc16')])

    The predefined [crc16] of crcmod has polynomial [0x18005], initial value
    [0], reflected bit order and no final xor.  crcmod reverses the 16 low bits
    of the polynomial, builds a table of 256 entries with [_bytecrc_r] and
    folds the bytes with [_crc16r]. *)

Module Crc.

Local Open Scope Z_scope.

Definition poly : Z := 0x18005.

(** [_bitrev(x, n)] *)
Fixpoint bitrev_from (n : nat) (x y : Z) : Z :=
  match n with
  | O => y
  | S k => bitrev_from k (Z.shiftr x 1) (Z.lor (Z.shiftl y 1) (Z.land x 1))
  end.

Definition bitrev (x : Z) (n : nat) : Z := bitrev_from n x 0.

Definition mask16 : Z := Z.shiftl 1 16 - 1.

Definition poly_r : Z := bitrev (Z.land poly mask16) 16.

Fixpoint bytecrc_loop (i : nat) (crc : Z) : Z :=
  match i with
  | O => crc
  | S k =>
      bytecrc_loop k
        (if Z.testbit crc 0 then Z.lxor (Z.shiftr crc 1) poly_r
         else Z.shiftr crc 1)
  end.

(** [_bytecrc_r(crc, poly, 16)]: entry [crc] of the table. *)
Definition bytecrc_r (crc : Z) : Z := Z.land (bytecrc_loop 8 crc) mask16.

Definition table (i : Z) : Z := bytecrc_r i.

(** [_crc16r(data, crc, table)] *)
Fixpoint crc16r (data : list Z) (crc : Z) : Z :=
  match data with
  | [] => crc
  | x :: rest =>
      crc16r rest (Z.lxor (table (Z.lxor x (Z.land crc 0xFF))) (Z.shiftr crc 8))
  end.

Definition crc16 (data : list Z) : Z := crc16r data (Z.land 0 mask16).

End Crc.

Import Crc.

(** [s.encode('utf-8')] for code points below 256: one byte below 128, two
    bytes from 128 on. *)
Definition encode_char (c : ascii) : list Z :=
  let n := Z.of_N (N_of_ascii c) in
  if (n <? 128)%Z then [n]
  else [Z.lor 0xC0 (Z.shiftr n 6); Z.lor 0x80 (Z.land n 0x3F)].

Fixpoint encode_utf8 (s : string) : list Z :=
  match s with
  | EmptyString => []
  | String c t => encode_char c ++ encode_utf8 t
  end.

(** ** [int(text, 16)] *)

Module PyInt.

Local Open Scope Z_scope.

(** The characters [int] skips around the number: the ASCII white space of
    the C parser, and the two white space code points from 128 on, which
    are turned into blanks before parsing. *)
Definition is_int_space (c : ascii) : bool :=
  let n := nat_of_ascii c in
  ((9 <=? n) && (n <=? 13) || (n =? 32) || (n =? 133) || (n =? 160))%nat.

Definition hex_digit (c : ascii) : option Z :=
  let n := Z.of_N (N_of_ascii c) in
  if (48 <=? n) && (n <=? 57) then Some (n - 48)
  else if (97 <=? n) && (n <=? 102) then Some (n - 87)
  else if (65 <=? n) && (n <=? 70) then Some (n - 55)
  else None.

Fixpoint skip_space (s : string) : string :=
  match s with
  | EmptyString => EmptyString
  | String c t => if is_int_space c then skip_space t else s
  end.

(** Digits with single underscores between them; gives the value and the
    text left over.  [prev_us] says that the previous character was an
    underscore. *)
Fixpoint scan_digits (s : string) (prev_us : bool) (acc : Z)
  : option (Z * string) :=
  match s with
  | EmptyString => if prev_us then None else Some (acc, EmptyString)
  | String c t =>
      if Ascii.eqb c "_" then
        if prev_us then None else scan_digits t true acc
      else
        match hex_digit c with
        | Some d => scan_digits t false (16 * acc + d)
        | None => if prev_us then None else Some (acc, s)
        end
  end.

Definition strip_sign (s : string) : bool * string :=
  match s with
  | String "+" t => (false, t)
  | String "-" t => (true, t)
  | _ => (false, s)
  end.

Definition strip_prefix (s : string) : string :=
  match s with
  | String "0" (String x t) =>
      if Ascii.eqb x "x" || Ascii.eqb x "X"
      then match t with String "_" t' => t' | _ => t end
      else s
  | _ => s
  end.

Definition starts_with_digit (s : string) : bool :=
  match s with
  | String c _ => match hex_digit c with Some _ => true | None => false end
  | EmptyString => false
  end.

(** [int(s, 16)]; [None] is [ValueError]. *)
Definition int16 (s : string) : option Z :=
  let '(neg, s2) := strip_sign (skip_space s) in
  let s3 := strip_prefix s2 in
  if starts_with_digit s3 then
    match scan_digits s3 false 0 with
    | Some (v, rest) =>
        match skip_space rest with
        | EmptyString => Some (if neg then - v else v)
        | String _ _ => None
        end
    | None => None
    end
  else None.

End PyInt.

Import PyInt.

(** ** The regular expression of line 161 *)

Module Re.

(** The pieces the pattern of line 161 is made of: starred digit classes,
    the literals [-] and [:], and two unescaped dots. *)
Inductive item : Type :=
| Digit             (* one digit *)
| Digits            (* any number of digits, as many as possible first *)
| Lit (c : ascii)   (* a literal character *)
| AnyChar.          (* any character but a line feed *)

Definition is_digit (c : ascii) : bool :=
  let n := nat_of_ascii c in ((48 <=? n) && (n <=? 57))%nat.

(** Backtracking match of a sequence of items at the start of [s], in the
    order [re] tries the alternatives: a starred item first takes as many
    characters as it can and gives them back one at a time.  The result is
    the length of the match. *)
Fixpoint match_here (p : list item) (s : string) {struct p} : option nat :=
  match p with
  | [] => Some O
  | Lit c :: p' =>
      match s with
      | String a t =>
          if Ascii.eqb a c then option_map S (match_here p' t) else None
      | EmptyString => None
      end
  | AnyChar :: p' =>
      match s with
      | String a t =>
          if Ascii.eqb a "010" then None else option_map S (match_here p' t)
      | EmptyString => None
      end
  | Digit :: p' =>
      match s with
      | String a t =>
          if is_digit a then option_map S (match_here p' t) else None
      | EmptyString => None
      end
  | Digits :: p' =>
      (fix star (s : string) : option nat :=
         match s with
         | String a t =>
             if is_digit a then
               match star t with
               | Some n => Some (S n)
               | None => match_here p' s
               end
             else match_here p' s
         | EmptyString => match_here p' s
         end) s
  end.

Definition obis_pattern : list item :=
  [Digits; Lit "-"; Digits; Lit ":"; Digits; AnyChar; Digits; AnyChar; Digits].

(** [s[:n]] *)
Fixpoint slice_to (n : nat) (s : string) : string :=
  match n, s with
  | O, _ => EmptyString
  | S _, EmptyString => EmptyString
  | S k, String c t => String c (slice_to k t)
  end.

(** [re.match] of the pattern of line 161 on [line], followed by
    [.group(1)]; [None] when there is no match. *)
Definition match_obis (line : string) : option string :=
  match match_here obis_pattern line with
  | Some n => Some (slice_to n line)
  | None => None
  end.

(** The identifier pattern as the specification words it: five groups of
    one or more digits, separated by a dash, a colon and two literal dots. *)
Definition spec_obis_pattern : list item :=
  [Digit; Digits; Lit "-"; Digit; Digits; Lit ":"; Digit; Digits; Lit ".";
   Digit; Digits; Lit "."; Digit; Digits].

Definition spec_match_obis (line : string) : option string :=
  match match_here spec_obis_pattern line with
  | Some n => Some (slice_to n line)
  | None => None
  end.

End Re.

(** ** Decoding and routing (source lines 16-52, 64, 158-175) *)

Definition list_of_interesting_codes : list (string * string) :=
  [ ("1-3:0.2.8", "status/dsmr_version");
    ("0-0:1.0.0", "status/current_time");
    ("0-0:96.1.1", "status/equipment_id");
    ("0-0:96.14.0", "electricity/status/tariff_indicator");
    ("0-0:17.0.0", "electricity/status/threshold");
    ("0-0:96.7.21", "electricity/status/power_failures");
    ("0-0:96.7.9", "electricity/status/long_power_failures");
    ("1-0:99.97.0", "electricity/status/power_failure_event_log");
    ("0-0:96.13.0", "status/text_message");
    ("1-0:1.8.1", "electricity/cumulative/consumed/tariff_1");
    ("1-0:1.8.2", "electricity/cumulative/consumed/tariff_2");
    ("1-0:2.8.1", "electricity/cumulative/delivered/tariff_1");
    ("1-0:2.8.2", "electricity/cumulative/delivered/tariff_2");
    ("1-0:1.7.0", "electricity/actual/power/consumed/total");
    ("1-0:21.7.0", "electricity/actual/power/consumed/phase_1");
    ("1-0:41.7.0", "electricity/actual/power/consumed/phase_2");
    ("1-0:61.7.0", "electricity/actual/power/consumed/phase_3");
    ("1-0:2.7.0", "electricity/actual/power/delivered/total");
    ("1-0:22.7.0", "electricity/actual/power/delivered/phase_1");
    ("1-0:42.7.0", "electricity/actual/power/delivered/phase_2");
    ("1-0:62.7.0", "electricity/actual/power/delivered/phase_3");
    ("1-0:31.7.0", "electricity/actual/current/phase_1");
    ("1-0:51.7.0", "electricity/actual/current/phase_2");
    ("1-0:71.7.0", "electricity/actual/current/phase_3");
    ("1-0:32.7.0", "electricity/actual/voltage/phase_1");
    ("1-0:52.7.0", "electricity/actual/voltage/phase_2");
    ("1-0:72.7.0", "electricity/actual/voltage/phase_3");
    ("1-0:32.32.0", "electricity/status/voltage_sags/phase_1");
    ("1-0:52.32.0", "electricity/status/voltage_sags/phase_2");
    ("1-0:72.32.0", "electricity/status/voltage_sags/phase_3");
    ("1-0:32.36.0", "electricity/status/voltage_swells/phase_1");
    ("1-0:52.36.0", "electricity/status/voltage_swells/phase_2");
    ("1-0:72.36.0", "electricity/status/voltage_swells/phase_3");
    ("0-1:24.2.1", "gas/cumulative/consumed");
    ("0-1:96.1.0", "gas/status/equipment_id") ].

Definition topic_prefix : string := "p1/".

(** [d[k]] on a dictionary written as its list of items; [None] when [k] is
    not a key ([k in d] is false). *)
Fixpoint dict_get (d : list (string * string)) (k : string) : option string :=
  match d with
  | [] => None
  | (k', v) :: rest => if String.eqb k k' then Some v else dict_get rest k
  end.

(** A Data Point: the OBIS code and the value of one line. *)
Definition data_point : Type := (string * string)%type.

(** A call of [mqtt_client.publish(topic, payload)]. *)
Definition message : Type := (string * string)%type.

(** Lines 161-167. *)
Definition decode_line (telegram_line : string) : option data_point :=
  match Re.match_obis telegram_line with
  | Some obis_code =>
      let value :=
        strip (replace ")" " "
                 (replace "(" " "
                    (slice_from (String.length obis_code) telegram_line))) in
      Some (obis_code, value)
  | None => None
  end.

(** The topic of lines 171-175. *)
Definition publish_topic (obis_code : string) : string :=
  match dict_get list_of_interesting_codes obis_code with
  | Some path => topic_prefix ++ path
  | None => (topic_prefix ++ "unidentified_code/") ++ obis_code
  end.

(** The destination below the topic prefix. *)
Definition route (obis_code : string) : string :=
  match dict_get list_of_interesting_codes obis_code with
  | Some path => path
  | None => "unidentified_code/" ++ obis_code
  end.

Definition publish_line (telegram_line : string) : list message :=
  match decode_line telegram_line with
  | Some (obis_code, value) => [(publish_topic obis_code, value)]
  | None => []
  end.

(** ** The checksum step and one turn of the main loop (lines 93-175) *)

Inductive py_exn : Type := IndexError | ValueError.

Inductive result (A : Type) : Type :=
| Ok (a : A)
| Raise (e : py_exn).

Arguments Ok {A} a.
Arguments Raise {A} e.

Definition bind {A B : Type} (r : result A) (k : A -> result B) : result B :=
  match r with
  | Ok a => k a
  | Raise e => Raise e
  end.

Notation "x <- r ;; k" := (bind r (fun x => k))
  (at level 61, r at next level, right associativity).

(** [xs[i]] *)
Definition index {A : Type} (xs : list A) (i : nat) : result A :=
  match nth_error xs i with
  | Some x => Ok x
  | None => Raise IndexError
  end.

Definition int16_or_raise (s : string) : result Z :=
  match int16 s with
  | Some v => Ok v
  | None => Raise ValueError
  end.

(** Line 141: the checksum written in the telegram. *)
Definition given_checksum (telegram : string) : result Z :=
  h <- index (split telegram "!") 1 ;;
  int16_or_raise ("0x" ++ h).

(** Line 144: the checksum computed by the script. *)
Definition calculated_checksum (telegram : string) : result Z :=
  b <- index (split telegram "!") 0 ;;
  Ok (crc16 (encode_utf8 b)).

(** Lines 141-175.  The messages are listed in the order they are published. *)
Definition process_telegram (telegram : string) : result (list message) :=
  given_checksum0 <- given_checksum telegram ;;
  calculated_checksum <- calculated_checksum telegram ;;
  let given_checksum := calculated_checksum in
  if (given_checksum =? calculated_checksum)%Z
  then Ok (flat_map publish_line (split telegram CRLF))
  else Ok [].

(** How one turn of [while True] ends: an exception nobody catches ends the
    process; otherwise the turn has published its messages and the loop goes
    on with the rest of the stream; or the turn is still reading.  Opening and
    closing the port are left out: every turn is taken with the port open. *)
Inductive turn : Type :=
| Terminated (e : py_exn)
| Published (msgs : list message) (rest : list read_event)
| Blocked (t : string).

Definition iteration (input : list read_event) : turn :=
  match read_loop framer_init input with
  | Waiting t => Blocked t
  | Completed t rest | Interrupted t rest =>
      match process_telegram t with
      | Ok msgs => Published msgs rest
      | Raise e => Terminated e
      end
  end.

(** How the script ends on a finite stream, after at most [fuel] turns. *)
Inductive final : Type :=
| Crashed (e : py_exn)
| Reading (t : string)
| Running (rest : list read_event).

(** [while True: ...]: everything published, and how the run ends. *)
Fixpoint driver (fuel : nat) (input : list read_event) : list message * final :=
  match fuel with
  | O => ([], Running input)
  | S k =>
      match iteration input with
      | Terminated e => ([], Crashed e)
      | Blocked t => ([], Reading t)
      | Published msgs rest =>
          let '(more, f) := driver k rest in (msgs ++ more, f)
      end
  end.

(** ** Vocabulary of the statements *)

(** A line that closes the telegram. *)
Definition is_trailer (line : string) : bool := startswith line "!".

(** What the lines in front of the trailer add to the telegram: every
    non-empty line followed by CR LF, in order. *)
Definition body_text (lines : list string) : string :=
  String.concat "" (map (fun l => (l ++ CRLF)%string) (filter truthy lines)).

(** [c in s] for a character [c]. *)
Fixpoint has_char (c : ascii) (s : string) : bool :=
  match s with
  | EmptyString => false
  | String a t => Ascii.eqb a c || has_char c t
  end.

(** [s.count(c)] for a character [c]. *)
Fixpoint count_char (c : ascii) (s : string) : nat :=
  match s with
  | EmptyString => O
  | String a t => (if Ascii.eqb a c then 1 else 0) + count_char c t
  end.

(** The number of digits a text starts with. *)
Fixpoint digits_len (s : string) : nat :=
  match s with
  | EmptyString => O
  | String a t => if Re.is_digit a then S (digits_len t) else O
  end.

(** A text made of white space only. *)
Fixpoint all_space (s : string) : bool :=
  match s with
  | EmptyString => true
  | String a t => is_space a && all_space t
  end.

(** The line feed character. *)
Definition LF : ascii := "010".


(** [f] holds of the [n] numbers from [v] on. *)
Fixpoint forall_from (n : nat) (v : Z) (f : Z -> bool) : bool :=
  match n with
  | O => true
  | S k => f v && forall_from k (v + 1)%Z f
  end.

(** * Properties *)

Example split_bang : split "a!b!c" "!" = ["a"; "b"; "c"].
Proof. reflexivity. Qed.

Example split_crlf :
  split ("/X" ++ CRLF ++ "1-0:1.8.1(5)" ++ CRLF ++ "!00") CRLF
  = ["/X"; "1-0:1.8.1(5)"; "!00"].
Proof. reflexivity. Qed.

Example strip_ex : strip ("  ab c " ++ CRLF) = "ab c".
Proof. reflexivity. Qed.

Example read_loop_ex :
  read_loop framer_init [Recv ("/X" ++ CRLF); Recv CRLF; Recv "!AB"; Recv "z"]
  = Completed ("/X" ++ CRLF ++ "!AB") [Recv "z"].
Proof. reflexivity. Qed.

Example poly_r_val : poly_r = 0xA001%Z.
Proof. reflexivity. Qed.

Example crc16_check : crc16 (encode_utf8 "123456789") = 0xBB3D%Z.
Proof. vm_compute. reflexivity. Qed.

(** ** Framing *)

Section Framing.

Local Open Scope string_scope.

Lemma append_assoc (a b c : string) : (a ++ b) ++ c = a ++ (b ++ c).
Proof. induction a as [|x a IH]; simpl; [reflexivity | now rewrite IH]. Qed.

Lemma append_empty_r (a : string) : a ++ "" = a.
Proof. induction a as [|x a IH]; simpl; [reflexivity | now rewrite IH]. Qed.

Lemma feed_trailer st l :
  is_trailer l = true -> feed st l = mkFramer (telegram st ++ l) true.
Proof. unfold feed, is_trailer. now intros ->. Qed.

Lemma feed_line st l :
  is_trailer l = false -> l <> "" ->
  feed st l = mkFramer (telegram st ++ (l ++ CRLF)) (checksum_found st).
Proof.
  unfold feed, is_trailer. intros -> Hne.
  destruct l; [congruence | reflexivity].
Qed.

Lemma feed_empty st : feed st "" = st.
Proof. reflexivity. Qed.

Lemma concat_empty_cons (x : string) (xs : list string) :
  String.concat "" (x :: xs) = x ++ String.concat "" xs.
Proof. destruct xs; simpl; [now rewrite append_empty_r | reflexivity]. Qed.

Lemma body_text_cons l ls :
  body_text (l :: ls) = if truthy l then l ++ CRLF ++ body_text ls else body_text ls.
Proof.
  unfold body_text. cbn [filter]. destruct (truthy l); [|reflexivity].
  cbn [map]. now rewrite concat_empty_cons, append_assoc.
Qed.

(** Lines that are no trailer only grow the accumulator. *)
Lemma read_loop_body pre : forall t rest,
  Forall (fun r => is_trailer (strip r) = false) pre ->
  read_loop (mkFramer t false) (map Recv pre ++ rest)%list
  = read_loop (mkFramer (t ++ body_text (map strip pre)) false) rest.
Proof.
  induction pre as [|r pre IH]; intros t rest Hpre.
  - simpl. unfold body_text. simpl. now rewrite append_empty_r.
  - inversion Hpre as [|? ? Hr Hrest]; subst.
    cbn [map app read_loop checksum_found].
    rewrite body_text_cons.
    unfold feed. unfold is_trailer in Hr. rewrite Hr.
    cbn [telegram checksum_found].
    destruct (truthy (strip r)).
    + rewrite IH by assumption. now rewrite !append_assoc.
    + now apply IH.
Qed.

Lemma read_loop_completes pre tr post :
  Forall (fun r => is_trailer (strip r) = false) pre ->
  is_trailer (strip tr) = true ->
  read_loop framer_init (map Recv (pre ++ tr :: post)%list)
  = Completed (body_text (map strip pre) ++ strip tr) (map Recv post).
Proof.
  intros Hpre Htr. rewrite map_app. unfold framer_init.
  rewrite read_loop_body by assumption.
  cbn [map read_loop checksum_found].
  rewrite feed_trailer by assumption.
  cbn [telegram]. destruct (map Recv post); reflexivity.
Qed.

Lemma read_loop_waits raws :
  Forall (fun r => is_trailer (strip r) = false) raws ->
  read_loop framer_init (map Recv raws) = Waiting (body_text (map strip raws)).
Proof.
  intros H. rewrite <- (app_nil_r (map Recv raws)). unfold framer_init.
  now rewrite read_loop_body.
Qed.

(** The first trailer line of a list of lines, when there is one. *)
Lemma first_trailer raws :
  Exists (fun l => is_trailer l = true) (map strip raws) ->
  exists pre tr post,
    raws = (pre ++ tr :: post)%list
    /\ Forall (fun r => is_trailer (strip r) = false) pre
    /\ is_trailer (strip tr) = true.
Proof.
  induction raws as [|r raws IH]; intros H.
  - inversion H.
  - destruct (is_trailer (strip r)) eqn:E.
    + exists [], r, raws. repeat split; auto.
    + inversion H as [? ? Hr | ? ? Hrest]; subst; [congruence|].
      destruct (IH Hrest) as (pre & tr & post & -> & Hpre & Htr).
      exists (r :: pre), tr, post. repeat split; auto.
Qed.

Lemma no_trailer raws :
  ~ Exists (fun l => is_trailer l = true) (map strip raws) ->
  Forall (fun r => is_trailer (strip r) = false) raws.
Proof.
  induction raws as [|r raws IH]; intros H; constructor.
  - destruct (is_trailer (strip r)) eqn:E; [|reflexivity].
    exfalso. apply H. now constructor.
  - apply IH. intros C. apply H. now constructor 2.
Qed.

End Framing.

(** C4: a frame is complete exactly when a line beginning with an exclamation
    mark has been fed.  A non-empty line that is no trailer is appended with
    CR LF, the trailer is appended as it is, an empty line changes nothing,
    and the completed telegram is the concatenation of the lines in front of
    the first trailer, in order, followed by that trailer. *)
Theorem framer_completes_on_trailer (raws : list string) :
  ((exists t rest, read_loop framer_init (map Recv raws) = Completed t rest)
   <-> Exists (fun l => is_trailer l = true) (map strip raws))
  /\ (forall pre tr post,
        raws = (pre ++ tr :: post)%list ->
        Forall (fun r => is_trailer (strip r) = false) pre ->
        is_trailer (strip tr) = true ->
        read_loop framer_init (map Recv raws)
        = Completed (body_text (map strip pre) ++ strip tr)%string (map Recv post))
  /\ (forall st l, is_trailer l = true ->
        feed st l = mkFramer (telegram st ++ l) true)
  /\ (forall st l, is_trailer l = false -> l <> "" ->
        feed st l = mkFramer (telegram st ++ (l ++ CRLF)) (checksum_found st))
  /\ (forall st, feed st "" = st).
Proof.
  split; [split|split; [|split; [|split]]].
  - intros (t & rest & H).
    destruct (Exists_dec (fun l => is_trailer l = true) (map strip raws)) as [E|E].
    + intros l. destruct (is_trailer l); [now left | now right].
    + exact E.
    + rewrite (read_loop_waits raws (no_trailer raws E)) in H. discriminate.
  - intros E. destruct (first_trailer raws E) as (pre & tr & post & -> & Hpre & Htr).
    eexists _, _. now apply read_loop_completes.
  - intros pre tr post -> Hpre Htr. now apply read_loop_completes.
  - exact feed_trailer.
  - exact feed_line.
  - exact feed_empty.
Qed.

Lemma framer_completes_on_trailer_witness :
  read_loop framer_init (map Recv ["/X"; ""; " 1-0:1.8.1(5) "; "!AB"; "z"])
  = Completed ("/X" ++ CRLF ++ "1-0:1.8.1(5)" ++ CRLF ++ "!AB")%string [Recv "z"].
Proof.
  apply (proj1 (proj2 (framer_completes_on_trailer
                         ["/X"; ""; " 1-0:1.8.1(5) "; "!AB"; "z"]))
           ["/X"; ""; " 1-0:1.8.1(5) "] "!AB" ["z"]).
  - reflexivity.
  - repeat constructor.
  - reflexivity.
Defined.

(** ** The checksum step *)

Section Checksum.

Local Open Scope string_scope.

Lemma prefix_bang c t :
  prefix "!" (String c t) = Ascii.eqb c "!".
Proof.
  change (prefix "!" (String c t))
    with (if ascii_dec "!" c then prefix "" t else false).
  destruct (ascii_dec "!" c) as [<-|N].
  - rewrite Ascii.eqb_refl. now destruct t.
  - symmetry. apply Ascii.eqb_neq. congruence.
Qed.

Lemma split_from_nonempty sep k s : split_from sep k s <> [].
Proof.
  revert k. induction s as [|c t IH]; intros k; cbn [split_from];
    [discriminate|].
  destruct k; [|apply IH].
  destruct (prefix sep (String c t)); [discriminate|].
  destruct (split_from sep 0 t); discriminate.
Qed.

(** Text without an exclamation mark is one piece. *)
Lemma split_no_bang a : has_char "!" a = false -> split a "!" = [a].
Proof.
  unfold split. induction a as [|c a IH]; intros H; [reflexivity|].
  cbn [has_char] in H. apply orb_false_iff in H as [Hc Ha].
  cbn [split_from]. rewrite prefix_bang, Hc, (IH Ha). reflexivity.
Qed.

(** The first piece ends at the first exclamation mark. *)
Lemma split_first_bang a rest :
  has_char "!" a = false ->
  split (a ++ String "!" rest) "!" = a :: split rest "!".
Proof.
  unfold split. induction a as [|c a IH]; intros H.
  - cbn [append split_from]. rewrite prefix_bang. reflexivity.
  - cbn [has_char] in H. apply orb_false_iff in H as [Hc Ha].
    cbn [append split_from]. rewrite prefix_bang, Hc, (IH Ha). reflexivity.
Qed.

Lemma split_two_bangs a b c :
  has_char "!" a = false -> has_char "!" b = false ->
  exists more,
    split (a ++ String "!" (b ++ String "!" c)) "!" = a :: b :: more.
Proof.
  intros Ha Hb. rewrite (split_first_bang _ _ Ha), (split_first_bang _ _ Hb).
  now eexists.
Qed.

(** A text with an exclamation mark, cut at the first one. *)
Lemma cut_at_first_bang t :
  (1 <= count_char "!" t)%nat ->
  exists a rest,
    t = a ++ String "!" rest /\ has_char "!" a = false
    /\ count_char "!" t = S (count_char "!" rest).
Proof.
  induction t as [|x t IH]; cbn [count_char]; intros H; [lia|].
  destruct (Ascii.eqb x "!") eqn:E.
  - apply Ascii.eqb_eq in E as ->. exists "", t. now repeat split.
  - destruct IH as (a & rest & -> & Ha & Hc); [simpl in H; lia|].
    exists (String x a), rest. cbn [has_char]. rewrite E, Ha, Hc.
    now repeat split.
Qed.

Lemma calculated_checksum_first_piece a rest :
  has_char "!" a = false ->
  calculated_checksum (a ++ String "!" rest) = Ok (crc16 (encode_utf8 a)).
Proof.
  intros Ha. unfold calculated_checksum.
  now rewrite (split_first_bang _ _ Ha).
Qed.


End Checksum.

(** C10: in a telegram with more than one exclamation mark the text is cut at
    the first one: the checksum given is read from the text between the first
    and the second exclamation mark, and the CRC is computed over the text in
    front of the first. *)
Theorem checksum_split_at_first_bang (t : string) :
  (2 <= count_char "!" t)%nat ->
  exists a b c,
    t = (a ++ "!" ++ b ++ "!" ++ c)%string
    /\ has_char "!" a = false /\ has_char "!" b = false
    /\ given_checksum t = int16_or_raise ("0x" ++ b)
    /\ calculated_checksum t = Ok (crc16 (encode_utf8 a)).
Proof.
  intros H.
  destruct (cut_at_first_bang t) as (a & r & -> & Ha & Hc); [lia|].
  destruct (cut_at_first_bang r) as (b & c & -> & Hb & _); [lia|].
  exists a, b, c. repeat split; try assumption.
  - unfold given_checksum.
    destruct (split_two_bangs a b c Ha Hb) as (more & E).
    cbn [append]. rewrite E. reflexivity.
  - now apply calculated_checksum_first_piece.
Qed.

Lemma checksum_split_at_first_bang_witness :
  exists a b c,
    ("/X" ++ CRLF ++ "0-0:96.13.0(A!12" ++ CRLF ++ "!BEEF")%string
    = (a ++ "!" ++ b ++ "!" ++ c)%string
    /\ has_char "!" a = false /\ has_char "!" b = false
    /\ given_checksum ("/X" ++ CRLF ++ "0-0:96.13.0(A!12" ++ CRLF ++ "!BEEF")
       = int16_or_raise ("0x" ++ b)
    /\ calculated_checksum ("/X" ++ CRLF ++ "0-0:96.13.0(A!12" ++ CRLF ++ "!BEEF")
       = Ok (crc16 (encode_utf8 a)).
Proof.
  apply (checksum_split_at_first_bang
           ("/X" ++ CRLF ++ "0-0:96.13.0(A!12" ++ CRLF ++ "!BEEF")).
  simpl. lia.
Defined.

(** An exclamation mark inside a value moves both the checksum read and the
    range of the CRC: here 18 is read, not [0xBEEF], and the CRC stops in the
    middle of the second line. *)
Example bang_inside_value :
  given_checksum ("/X" ++ CRLF ++ "0-0:96.13.0(A!12" ++ CRLF ++ "!BEEF") = Ok 18%Z
  /\ calculated_checksum ("/X" ++ CRLF ++ "0-0:96.13.0(A!12" ++ CRLF ++ "!BEEF")
     = Ok (crc16 (encode_utf8 ("/X" ++ CRLF ++ "0-0:96.13.0(A"))).
Proof. split; reflexivity. Qed.

(** C1: the checksum read from the telegram is replaced by the computed one
    before the two are compared, so the gate lets every telegram through.
    The telegram of three lines below carries the checksum [0000], its
    computed checksum is 18297, and its Data Point is published all the
    same. *)
Theorem checksum_gate_accepts_mismatch :
  let input := [Recv "/X"; Recv "1-0:1.8.1(5)"; Recv "!0000"] in
  let t := ("/X" ++ CRLF ++ "1-0:1.8.1(5)" ++ CRLF ++ "!0000")%string in
  read_loop framer_init input = Completed t []
  /\ given_checksum t = Ok 0%Z
  /\ calculated_checksum t = Ok 18297%Z
  /\ iteration input
     = Published [("p1/electricity/cumulative/consumed/tariff_1", "5")] [].
Proof. vm_compute. repeat split; reflexivity. Qed.

(** C2: the CRC is computed over the text in front of the first exclamation
    mark, the mark itself left out.  For the telegram below the script
    computes 18297; the CRC of the same text with the mark is 64070. *)
Theorem calculated_checksum_excludes_bang :
  let body := ("/X" ++ CRLF ++ "1-0:1.8.1(5)" ++ CRLF)%string in
  let t := (body ++ "!0000")%string in
  calculated_checksum t = Ok (crc16 (encode_utf8 body))
  /\ crc16 (encode_utf8 body) = 18297%Z
  /\ crc16 (encode_utf8 (body ++ "!")) = 64070%Z
  /\ calculated_checksum t <> Ok (crc16 (encode_utf8 (body ++ "!"))).
Proof.
  vm_compute. repeat split; try reflexivity. discriminate.
Qed.

(** C3: the checksum step runs outside the [try]; a trailer that is no
    hexadecimal number raises [ValueError], a telegram without exclamation
    mark (left by a failed read) raises [IndexError], and either ends the
    process: the telegram that follows on the stream is never read. *)
Theorem checksum_failure_ends_process :
  iteration [Recv "/X"; Recv "!ZZ"] = Terminated ValueError
  /\ iteration [Recv "/X"; ReadExn] = Terminated IndexError
  /\ driver 5 [Recv "/X"; Recv "!ZZ";
               Recv "/Y"; Recv "1-0:1.8.1(5)"; Recv "!0000"]
     = ([], Crashed ValueError)
  /\ driver 5 [Recv "/X"; ReadExn;
               Recv "/Y"; Recv "1-0:1.8.1(5)"; Recv "!0000"]
     = ([], Crashed IndexError).
Proof. vm_compute. repeat split; reflexivity. Qed.

(** ** Routing *)

Section Routing.

Local Open Scope string_scope.

Lemma prefix_append p s : prefix p (p ++ s) = true.
Proof.
  induction p as [|c p IH]; cbn [append prefix].
  - now destruct s.
  - destruct (ascii_dec c c); [exact IH | congruence].
Qed.

Lemma dict_get_In d k v : dict_get d k = Some v -> In (k, v) d.
Proof.
  induction d as [|[k' v'] d IH]; cbn [dict_get]; [discriminate|].
  destruct (String.eqb k k') eqn:E.
  - apply String.eqb_eq in E as ->. intros [= ->]. now left.
  - intros H. right. now apply IH.
Qed.

(** A key of the dictionary is found by [dict_get]. *)
Lemma dict_get_key d k :
  In k (map fst d) <-> exists v, dict_get d k = Some v.
Proof.
  induction d as [|[k' v'] d IH]; cbn [dict_get map fst In].
  - split; [tauto | now intros [v H]].
  - destruct (String.eqb k k') eqn:E.
    + apply String.eqb_eq in E as ->. split; [now exists v' | now left].
    + apply String.eqb_neq in E. rewrite <- IH. split; [|tauto].
      intros [H|H]; [congruence | exact H].
Qed.

(** No path of the table lies in the namespace of the unmapped codes. *)
Lemma no_path_unidentified k path :
  In (k, path) list_of_interesting_codes ->
  prefix "unidentified_code/" path = false.
Proof.
  intros H.
  assert (T : forallb (fun kv => negb (prefix "unidentified_code/" (snd kv)))
                list_of_interesting_codes = true) by (vm_compute; reflexivity).
  rewrite forallb_forall in T. specialize (T _ H).
  now apply negb_true_iff in T.
Qed.

Lemma append_inj_l (p a b : string) : p ++ a = p ++ b -> a = b.
Proof. induction p as [|c p IH]; cbn [append]; [auto | intros [= H]; auto]. Qed.

Lemma publish_topic_route obis_code :
  publish_topic obis_code = topic_prefix ++ route obis_code.
Proof.
  unfold publish_topic, route.
  destruct (dict_get list_of_interesting_codes obis_code);
    [reflexivity | apply append_assoc].
Qed.

Lemma process_telegram_msgs t msgs :
  process_telegram t = Ok msgs ->
  msgs = flat_map publish_line (split t CRLF).
Proof.
  unfold process_telegram.
  destruct (given_checksum t); [|discriminate].
  destruct (calculated_checksum t); [|discriminate].
  cbn [bind]. rewrite Z.eqb_refl. now intros [= <-].
Qed.

Lemma publish_line_topic l topic payload :
  In (topic, payload) (publish_line l) ->
  exists obis_code, topic = publish_topic obis_code.
Proof.
  unfold publish_line. destruct (decode_line l) as [[o v]|]; [|intros []].
  intros [[= <- _]|[]]. now exists o.
Qed.

End Routing.

(** C6: routing is a function of the identifier alone.  An identifier that
    is a key of the table goes to the path of that key; any other identifier
    goes to the namespace [unidentified_code/] followed by the identifier
    itself, which is none of the paths of the table; the topic published on
    is the destination behind the topic prefix. *)
Theorem route_mapped_or_fallback (obis_code : string) :
  (forall path,
      dict_get list_of_interesting_codes obis_code = Some path ->
      route obis_code = path
      /\ publish_topic obis_code = (topic_prefix ++ path)%string)
  /\ (dict_get list_of_interesting_codes obis_code = None ->
      route obis_code = ("unidentified_code/" ++ obis_code)%string
      /\ publish_topic obis_code
         = (topic_prefix ++ "unidentified_code/" ++ obis_code)%string
      /\ forall k path,
          In (k, path) list_of_interesting_codes ->
          route obis_code <> path
          /\ publish_topic obis_code <> (topic_prefix ++ path)%string)
  /\ (forall other, other = obis_code -> route other = route obis_code).
Proof.
  split; [|split].
  - intros path H. unfold publish_topic, route. now rewrite H.
  - intros H.
    assert (R : route obis_code = ("unidentified_code/" ++ obis_code)%string)
      by (unfold route; now rewrite H).
    split; [exact R|]. split.
    + now rewrite publish_topic_route, R.
    + intros k path Hin.
      assert (N : route obis_code <> path).
      { intros <-. pose proof (no_path_unidentified _ _ Hin) as P.
        rewrite R, prefix_append in P. discriminate. }
      split; [exact N|].
      rewrite publish_topic_route. intros E. now apply append_inj_l in E.
  - now intros other ->.
Qed.

Lemma route_mapped_or_fallback_witness :
  (route "1-0:1.8.1" = "electricity/cumulative/consumed/tariff_1"
   /\ publish_topic "1-0:1.8.1"
      = (topic_prefix ++ "electricity/cumulative/consumed/tariff_1")%string)
  /\ route "9-9:9.9.9" = "unidentified_code/9-9:9.9.9".
Proof.
  split.
  - apply (proj1 (route_mapped_or_fallback "1-0:1.8.1")). reflexivity.
  - apply (proj1 (proj2 (route_mapped_or_fallback "9-9:9.9.9"))). reflexivity.
Defined.

(** C7, as the script has it: [0-1:96.1.0] is a key of the table, so the line
    [0-1:96.1.0(ABC123)] is published under [gas/status/equipment_id] behind
    the topic prefix, with the value [ABC123]. *)
Theorem gas_equipment_id_is_mapped :
  decode_line "0-1:96.1.0(ABC123)" = Some ("0-1:96.1.0", "ABC123")
  /\ dict_get list_of_interesting_codes "0-1:96.1.0"
     = Some "gas/status/equipment_id"
  /\ route "0-1:96.1.0" = "gas/status/equipment_id"
  /\ publish_line "0-1:96.1.0(ABC123)"
     = [("p1/gas/status/equipment_id", "ABC123")].
Proof. vm_compute. repeat split; reflexivity. Qed.

(** C7 as it was claimed does not hold: the identifier is in the table and
    the destination is not the fallback one. *)
Lemma gas_equipment_id_not_fallback :
  ~ (dict_get list_of_interesting_codes "0-1:96.1.0" = None
     /\ route "0-1:96.1.0" = "unidentified_code/0-1:96.1.0").
Proof. intros [H _]. vm_compute in H. discriminate. Qed.

(** C9: every topic handed to [publish] starts with the topic prefix [p1/],
    for a mapped identifier and for the fallback alike, in every run of the
    main loop. *)
Theorem published_topics_have_prefix :
  (forall obis_code, startswith (publish_topic obis_code) "p1/" = true)
  /\ (forall fuel input topic payload,
        In (topic, payload) (fst (driver fuel input)) ->
        startswith topic "p1/" = true).
Proof.
  assert (P : forall obis_code, startswith (publish_topic obis_code) "p1/" = true).
  { intros o. rewrite publish_topic_route. apply prefix_append. }
  split; [exact P|].
  induction fuel as [|fuel IH]; intros input topic payload; cbn [driver].
  - intros [].
  - unfold iteration.
    destruct (read_loop framer_init input) as [t rest|t rest|t];
      try (destruct (process_telegram t) as [msgs|e] eqn:E);
      try (intros []).
    all: destruct (driver fuel rest) as [more f] eqn:D; cbn [fst].
    all: intros H; apply in_app_or in H as [H|H];
      [|apply (IH rest topic payload); now rewrite D].
    all: rewrite (process_telegram_msgs _ _ E) in H.
    all: apply in_flat_map in H as (l & _ & H).
    all: apply publish_line_topic in H as (o & ->); apply P.
Qed.

Lemma published_topics_have_prefix_witness :
  startswith "p1/electricity/cumulative/consumed/tariff_1" "p1/" = true.
Proof.
  apply (proj2 published_topics_have_prefix 2
           [Recv "/X"; Recv "1-0:1.8.1(5)"; Recv "!0000"]
           "p1/electricity/cumulative/consumed/tariff_1" "5").
  vm_compute. left. reflexivity.
Defined.

(** ** Empty reads *)

Section EmptyReads.

Lemma read_loop_skips_empty st n rest :
  checksum_found st = false ->
  read_loop st (repeat (Recv "") n ++ rest) = read_loop st rest.
Proof.
  intros H. induction n as [|n IH]; [reflexivity|].
  cbn [repeat app read_loop]. rewrite H.
  change (feed st (strip "")) with st. exact IH.
Qed.

End EmptyReads.

(** C8, as the script has it: a read that returns nothing, as a read that
    times out does, leaves the accumulator as it is and the loop goes on
    reading.  After any number of empty reads the loop is where it was: still
    waiting with the same telegram in progress when the stream has nothing
    more, and the lines that come later are added to that telegram. *)
Theorem empty_reads_keep_telegram (st : framer) (n : nat) :
  checksum_found st = false ->
  feed st (strip "") = st
  /\ read_loop st (repeat (Recv "") n) = Waiting (telegram st)
  /\ forall rest, read_loop st (repeat (Recv "") n ++ rest) = read_loop st rest.
Proof.
  intros H. split; [reflexivity|]. split.
  - rewrite <- (app_nil_r (repeat _ n)), read_loop_skips_empty by assumption.
    cbn [read_loop]. now rewrite H.
  - intros rest. now apply read_loop_skips_empty.
Qed.

Lemma empty_reads_keep_telegram_witness :
  read_loop (mkFramer ("/X" ++ CRLF) false) (repeat (Recv "") 3)
  = Waiting ("/X" ++ CRLF)%string.
Proof.
  apply (proj1 (proj2 (empty_reads_keep_telegram
                         (mkFramer ("/X" ++ CRLF) false) 3 eq_refl))).
Defined.

(** C8 as it was claimed does not hold: after three reads that time out the
    telegram in progress is still there, the loop is still reading, and a
    trailer that arrives afterwards completes that same telegram. *)
Lemma timeout_does_not_reset_framer :
  telegram (feed (mkFramer ("/X" ++ CRLF) false) (strip "")) <> telegram framer_init
  /\ read_loop framer_init [Recv "/X"; Recv ""; Recv ""; Recv ""]
     = Waiting ("/X" ++ CRLF)%string
  /\ read_loop framer_init [Recv "/X"; Recv ""; Recv ""; Recv ""; Recv "!0000"]
     = Completed ("/X" ++ CRLF ++ "!0000")%string [].
Proof. split; [discriminate | split; reflexivity]. Qed.

(** ** Decoding *)

Section Decoding.

Import Re.
Local Open Scope string_scope.

(** *** The starred digit class *)

Lemma match_digits_nil p : match_here (Digits :: p) "" = match_here p "".
Proof. reflexivity. Qed.

Lemma match_digits_cons p a t :
  match_here (Digits :: p) (String a t)
  = if is_digit a then
      match match_here (Digits :: p) t with
      | Some n => Some (S n)
      | None => match_here p (String a t)
      end
    else match_here p (String a t).
Proof. reflexivity. Qed.

Lemma match_digit_cons p a t :
  match_here (Digit :: p) (String a t)
  = if is_digit a then option_map S (match_here p t) else None.
Proof. reflexivity. Qed.

(** When the rest of the pattern matches behind all the digits, that is
    the match found: it is the first one tried. *)
Lemma digits_greedy p s n :
  match_here p (slice_from (digits_len s) s) = Some n ->
  match_here (Digits :: p) s = Some (digits_len s + n).
Proof.
  induction s as [|a t IH]; intros H.
  - exact H.
  - rewrite match_digits_cons. cbn [digits_len] in *.
    destruct (is_digit a); [|exact H].
    cbn [slice_from] in H. now rewrite (IH H).
Qed.

(** In front of a literal that is no digit, the starred class can only
    take all the digits. *)
Lemma digits_then_literal c p s n :
  is_digit c = false ->
  match_here (Digits :: Lit c :: p) s = Some n ->
  exists m,
    match_here (Lit c :: p) (slice_from (digits_len s) s) = Some m
    /\ n = digits_len s + m.
Proof.
  intros Hc. revert n. induction s as [|a t IH]; intros n H.
  - exists n. now split.
  - rewrite match_digits_cons in H. cbn [digits_len].
    destruct (is_digit a) eqn:Ha; [|exists n; now split].
    destruct (match_here (Digits :: Lit c :: p) t) as [n'|] eqn:E.
    + injection H as <-. destruct (IH n' eq_refl) as (m & Hm & ->).
      exists m. now split.
    + cbn [match_here] in H. destruct (Ascii.eqb a c) eqn:Eac; [|discriminate].
      apply Ascii.eqb_eq in Eac. congruence.
Qed.

Lemma digits_alone s : match_here [Digits] s = Some (digits_len s).
Proof.
  induction s as [|a t IH]; [reflexivity|].
  rewrite match_digits_cons, IH. cbn [digits_len match_here].
  now destruct (is_digit a).
Qed.

(** *** From the pattern of the specification to the pattern of the script *)

(** One group of digits and its separator: [sep] is what the script has
    where the specification has the literal [c]. *)
Lemma group_refines c sep ps pl :
  is_digit c = false ->
  (forall u, match_here (sep :: pl) (String c u) = option_map S (match_here pl u)) ->
  (forall u m, match_here ps u = Some m -> match_here pl u = Some m) ->
  forall s n,
    match_here (Digit :: Digits :: Lit c :: ps) s = Some n ->
    match_here (Digits :: sep :: pl) s = Some n.
Proof.
  intros Hc Hsep Htail s n H.
  destruct s as [|a t]; [discriminate|].
  rewrite match_digit_cons in H.
  destruct (is_digit a) eqn:Ha; [|discriminate].
  destruct (match_here (Digits :: Lit c :: ps) t) as [n'|] eqn:E; [|discriminate].
  cbn [option_map] in H. injection H as <-.
  destruct (digits_then_literal _ _ _ _ Hc E) as (m & Hm & ->).
  replace (S (digits_len t + m)) with (digits_len (String a t) + m)
    by (cbn [digits_len]; now rewrite Ha).
  apply digits_greedy. cbn [digits_len]. rewrite Ha. cbn [slice_from].
  destruct (slice_from (digits_len t) t) as [|x u]; [discriminate|].
  cbn [match_here] in Hm. destruct (Ascii.eqb x c) eqn:Exc; [|discriminate].
  apply Ascii.eqb_eq in Exc as ->. rewrite Hsep.
  destruct (match_here ps u) as [m'|] eqn:Eu; [|discriminate].
  now rewrite (Htail _ _ Eu).
Qed.

Lemma last_group_refines s n :
  match_here [Digit; Digits] s = Some n -> match_here [Digits] s = Some n.
Proof.
  destruct s as [|a t]; [discriminate|].
  rewrite match_digit_cons.
  destruct (is_digit a) eqn:Ha; [|discriminate].
  rewrite digits_alone. intros [= <-].
  rewrite digits_alone. cbn [digits_len]. now rewrite Ha.
Qed.

Lemma lit_step c pl u :
  match_here (Lit c :: pl) (String c u) = option_map S (match_here pl u).
Proof. cbn [match_here]. now rewrite Ascii.eqb_refl. Qed.

(** A line that starts with an identifier in the sense of the
    specification is matched by the script, with the same identifier. *)
Lemma spec_match_is_matched line obis_code :
  spec_match_obis line = Some obis_code -> match_obis line = Some obis_code.
Proof.
  unfold spec_match_obis, match_obis.
  destruct (match_here spec_obis_pattern line) as [n|] eqn:E; [|discriminate].
  intros [= <-].
  enough (M : match_here obis_pattern line = Some n) by now rewrite M.
  revert line n E. unfold spec_obis_pattern, obis_pattern.
  apply group_refines; [reflexivity | apply lit_step |].
  apply group_refines; [reflexivity | apply lit_step |].
  apply group_refines; [reflexivity | reflexivity |].
  apply group_refines; [reflexivity | reflexivity |].
  apply last_group_refines.
Qed.

(** *** The identifier is the start of the line *)

Lemma match_here_length p : forall s n,
  match_here p s = Some n -> n <= String.length s.
Proof.
  induction p as [|i p IH]; intros s n.
  - intros [= <-]. apply Nat.le_0_l.
  - destruct i.
    + destruct s as [|a t]; cbn [match_here]; [discriminate|].
      destruct (is_digit a); [|discriminate].
      destruct (match_here p t) as [m|] eqn:E; [|discriminate].
      intros [= <-]. cbn [String.length]. apply le_n_S. now apply IH.
    + revert n. induction s as [|a t IHs]; intros n.
      * rewrite match_digits_nil. apply IH.
      * rewrite match_digits_cons.
        destruct (is_digit a); [|apply IH].
        destruct (match_here (Digits :: p) t) as [m|]; [|apply IH].
        intros [= <-]. cbn [String.length]. apply le_n_S. now apply IHs.
    + destruct s as [|a t]; cbn [match_here]; [discriminate|].
      destruct (Ascii.eqb a c); [|discriminate].
      destruct (match_here p t) as [m|] eqn:E; [|discriminate].
      intros [= <-]. cbn [String.length]. apply le_n_S. now apply IH.
    + destruct s as [|a t]; cbn [match_here]; [discriminate|].
      destruct (Ascii.eqb a "010"); [discriminate|].
      destruct (match_here p t) as [m|] eqn:E; [|discriminate].
      intros [= <-]. cbn [String.length]. apply le_n_S. now apply IH.
Qed.

Lemma slice_to_length n : forall s,
  n <= String.length s -> String.length (slice_to n s) = n.
Proof.
  induction n as [|n IH]; intros s H; [reflexivity|].
  destruct s as [|a t]; cbn [String.length] in H; [lia|].
  cbn [slice_to String.length]. rewrite IH; [reflexivity | lia].
Qed.

Lemma slice_to_from n : forall s, slice_to n s ++ slice_from n s = s.
Proof.
  induction n as [|n IH]; intros s; [reflexivity|].
  destruct s as [|a t]; [reflexivity|].
  cbn [slice_to slice_from append]. now rewrite IH.
Qed.

(** *** The value *)

Lemma replace_removes old new s :
  Ascii.eqb new old = false -> has_char old (replace old new s) = false.
Proof.
  intros H. induction s as [|a t IH]; [reflexivity|].
  cbn [replace has_char]. rewrite IH, orb_false_r.
  destruct (Ascii.eqb a old) eqn:E; [exact H | exact E].
Qed.

Lemma replace_keeps_out c old new s :
  Ascii.eqb new c = false -> has_char c s = false ->
  has_char c (replace old new s) = false.
Proof.
  intros H. induction s as [|a t IH]; [reflexivity|].
  cbn [replace has_char]. intros Hs.
  apply orb_false_iff in Hs as [Ha Ht]. rewrite (IH Ht), orb_false_r.
  now destruct (Ascii.eqb a old).
Qed.

Lemma lstrip_keeps_out c s :
  has_char c s = false -> has_char c (lstrip s) = false.
Proof.
  induction s as [|a t IH]; [reflexivity|].
  cbn [lstrip]. destruct (is_space a); [|auto].
  cbn [has_char]. intros H. apply orb_false_iff in H as [_ Ht]. auto.
Qed.

Lemma rstrip_keeps_out c s :
  has_char c s = false -> has_char c (rstrip s) = false.
Proof.
  induction s as [|a t IH]; [reflexivity|].
  cbn [has_char]. intros H. apply orb_false_iff in H as [Ha Ht].
  specialize (IH Ht). cbn [rstrip].
  destruct (rstrip t) as [|b r].
  - destruct (is_space a); [reflexivity|]. cbn [has_char]. now rewrite Ha.
  - cbn [has_char] in *. now rewrite Ha.
Qed.

Lemma rstrip_idem s : rstrip (rstrip s) = rstrip s.
Proof.
  induction s as [|a t IH]; [reflexivity|].
  cbn [rstrip]. destruct (rstrip t) as [|b r] eqn:E.
  - destruct (is_space a) eqn:Ha; [reflexivity|].
    cbn [rstrip]. now rewrite Ha.
  - cbn [rstrip] in *. now rewrite IH.
Qed.

Lemma lstrip_idem s : lstrip (lstrip s) = lstrip s.
Proof.
  induction s as [|a t IH]; [reflexivity|].
  cbn [lstrip]. destruct (is_space a) eqn:Ha; [exact IH|].
  cbn [lstrip]. now rewrite Ha.
Qed.

Lemma lstrip_rstrip s : lstrip s = s -> lstrip (rstrip s) = rstrip s.
Proof.
  destruct s as [|a t]; [reflexivity|].
  cbn [lstrip]. destruct (is_space a) eqn:Ha.
  - intros H. exfalso.
    assert (L : forall u, String.length (lstrip u) <= String.length u).
    { induction u as [|x u IHu]; cbn [lstrip]; [apply le_n|].
      destruct (is_space x); cbn [String.length]; [lia | apply le_n]. }
    specialize (L t). rewrite H in L. cbn [String.length] in L. lia.
  - intros _. cbn [rstrip].
    destruct (rstrip t); rewrite ?Ha; cbn [lstrip]; now rewrite Ha.
Qed.

Lemma strip_clean s :
  lstrip (strip s) = strip s /\ rstrip (strip s) = strip s.
Proof.
  unfold strip. split.
  - apply lstrip_rstrip, lstrip_idem.
  - apply rstrip_idem.
Qed.

(** What holds of every line the script decodes: the identifier is the
    start of the line, and the value is what follows it with the
    parentheses turned into blanks and the blanks at both ends removed. *)
Lemma decode_line_point line obis_code value :
  decode_line line = Some (obis_code, value) ->
  (exists rest, line = obis_code ++ rest
                /\ value = strip (replace ")" " " (replace "(" " " rest)))
  /\ has_char "(" value = false /\ has_char ")" value = false
  /\ lstrip value = value /\ rstrip value = value.
Proof.
  unfold decode_line, match_obis.
  destruct (match_here obis_pattern line) as [n|] eqn:E; [|discriminate].
  intros [= <- <-].
  pose proof (match_here_length _ _ _ E) as L.
  rewrite (slice_to_length _ _ L).
  split; [|split; [|split]].
  - exists (slice_from n line). split; [|reflexivity].
    symmetry. apply slice_to_from.
  - unfold strip. apply rstrip_keeps_out, lstrip_keeps_out.
    apply replace_keeps_out; [reflexivity|].
    now apply replace_removes.
  - unfold strip. apply rstrip_keeps_out, lstrip_keeps_out.
    now apply replace_removes.
  - apply strip_clean.
Qed.

(** A line that starts with an identifier in the sense of the
    specification is decoded, and to that identifier. *)
Lemma decode_line_spec_match line obis_code :
  spec_match_obis line = Some obis_code ->
  exists value, decode_line line = Some (obis_code, value).
Proof.
  intros H. unfold decode_line.
  rewrite (spec_match_is_matched _ _ H). now eexists.
Qed.

End Decoding.

(** C5: the pattern of the script has starred digit groups and unescaped
    dots, so it takes lines the identifier pattern does not: a line without
    any digit, and a line with two groups behind the colon, where the
    parenthesis and the value end up in the identifier. *)
Theorem decode_line_accepts_non_identifiers :
  Re.spec_match_obis "-:ab" = None
  /\ decode_line "-:ab" = Some ("-:ab", "")
  /\ Re.spec_match_obis "1-0:1.8(5)" = None
  /\ decode_line "1-0:1.8(5)" = Some ("1-0:1.8(5", "")
  /\ publish_line "1-0:1.8(5)" = [("p1/unidentified_code/1-0:1.8(5", "")].
Proof. vm_compute. repeat split; reflexivity. Qed.

(** * More of the script *)

(** ** Splitting and stripping *)

Section SplitJoin.

Local Open Scope string_scope.

Lemma concat_head_char sep c p ps :
  String.concat sep (String c p :: ps) = String c (String.concat sep (p :: ps)).
Proof. destruct ps; reflexivity. Qed.

Lemma prefix_slice sep : forall s,
  prefix sep s = true -> s = sep ++ slice_from (String.length sep) s.
Proof.
  induction sep as [|c sep IH]; intros s H; [reflexivity|].
  destruct s as [|a t]; [discriminate|].
  cbn [prefix] in H. destruct (ascii_dec c a) as [<-|]; [|discriminate].
  cbn [String.length slice_from append]. now rewrite <- (IH t H).
Qed.

Lemma split_from_join sep : sep <> "" ->
  forall s k, String.concat sep (split_from sep k s) = slice_from k s.
Proof.
  intros Hsep. induction s as [|c t IH]; intros k.
  - now destruct k.
  - cbn [split_from]. destruct k as [|k]; [|now rewrite IH].
    destruct (prefix sep (String c t)) eqn:P.
    + destruct sep as [|c' sep']; [congruence|].
      cbn [prefix] in P. destruct (ascii_dec c' c) as [<-|]; [|discriminate].
      replace (String.length (String c' sep') - 1) with (String.length sep')
        by (cbn [String.length]; lia).
      pose proof (IH (String.length sep')) as J.
      destruct (split_from (String c' sep') (String.length sep') t) as [|y l] eqn:E.
      * now apply split_from_nonempty in E.
      * change (String.concat (String c' sep') ("" :: y :: l))
          with (String c' sep' ++ String.concat (String c' sep') (y :: l)).
        rewrite J. cbn [append slice_from]. now rewrite <- (prefix_slice sep' t P).
    + pose proof (IH 0) as J.
      destruct (split_from sep 0 t) as [|p ps] eqn:E.
      * now apply split_from_nonempty in E.
      * rewrite concat_head_char, J. reflexivity.
Qed.

Lemma lstrip_cut s : exists l, s = l ++ lstrip s /\ all_space l = true.
Proof.
  induction s as [|a t (l & E & A)]; [now exists ""|].
  cbn [lstrip]. destruct (is_space a) eqn:Ha.
  - exists (String a l). cbn [append all_space]. rewrite Ha, A, <- E. now split.
  - now exists "".
Qed.

Lemma rstrip_cut s : exists r, s = rstrip s ++ r /\ all_space r = true.
Proof.
  induction s as [|a t (r & E & A)]; [now exists ""|].
  cbn [rstrip]. destruct (rstrip t) as [|b u] eqn:R.
  - destruct (is_space a) eqn:Ha.
    + exists (String a r). cbn [append all_space]. cbn [append] in E.
      rewrite Ha, A. split; [now rewrite E | reflexivity].
    + exists r. cbn [append] in *. split; [now rewrite E | exact A].
  - exists r. cbn [append] in *. split; [now rewrite <- E | exact A].
Qed.

End SplitJoin.

(** X1: joining the pieces of a split with the separator gives the text back,
    for every non-empty separator; the script splits on the exclamation mark
    and on CR LF. *)
Theorem split_then_join (s sep : string) :
  sep <> EmptyString -> String.concat sep (split s sep) = s.
Proof. intros H. unfold split. now rewrite split_from_join. Qed.

Lemma split_then_join_witness :
  String.concat CRLF (split ("/X" ++ CRLF ++ CRLF ++ "!AB") CRLF)
  = ("/X" ++ CRLF ++ CRLF ++ "!AB")%string.
Proof.
  apply (split_then_join ("/X" ++ CRLF ++ CRLF ++ "!AB") CRLF). discriminate.
Defined.

(** X2: [strip] only takes white space away, and only at the two ends: the
    text is the stripped text between two runs of white space, and the
    stripped text has nothing left to strip on either side. *)
Theorem strip_trims_both_ends (s : string) :
  (exists l r, s = (l ++ strip s ++ r)%string
               /\ all_space l = true /\ all_space r = true)
  /\ lstrip (strip s) = strip s
  /\ rstrip (strip s) = strip s.
Proof.
  split; [|apply strip_clean].
  destruct (lstrip_cut s) as (l & El & Al).
  destruct (rstrip_cut (lstrip s)) as (r & Er & Ar).
  exists l, r. unfold strip. rewrite <- Er. now repeat split.
Qed.

(** ** The loop around the framer *)

Section Loop.

Local Open Scope string_scope.

Lemma has_char_app c a b : has_char c (a ++ b) = has_char c a || has_char c b.
Proof.
  induction a as [|x a IH]; [reflexivity|].
  cbn [append has_char]. now rewrite IH, orb_assoc.
Qed.

Lemma trailer_has_bang l : is_trailer l = true -> has_char "!" l = true.
Proof.
  unfold is_trailer, startswith. destruct l as [|c t]; [discriminate|].
  rewrite prefix_bang. cbn [has_char]. now intros ->.
Qed.

Lemma no_bang_no_trailer l : has_char "!" l = false -> is_trailer l = false.
Proof.
  intros H. destruct (is_trailer l) eqn:E; [|reflexivity].
  apply trailer_has_bang in E. congruence.
Qed.

Lemma read_loop_done st input :
  checksum_found st = true -> read_loop st input = Completed (telegram st) input.
Proof. intros H. destruct input as [|[]]; cbn [read_loop]; now rewrite H. Qed.

Lemma feed_found st l :
  checksum_found st = false ->
  checksum_found (feed st l) = true ->
  has_char "!" (telegram (feed st l)) = true.
Proof.
  intros Hf. unfold feed. destruct (startswith l "!") eqn:T.
  - intros _. cbn [telegram]. rewrite has_char_app.
    fold (is_trailer l) in T. rewrite (trailer_has_bang _ T). apply orb_true_r.
  - destruct (truthy l); cbn [checksum_found]; congruence.
Qed.

Lemma read_loop_completed_bang input : forall st t rest,
  checksum_found st = false ->
  read_loop st input = Completed t rest ->
  has_char "!" t = true /\ List.length rest < List.length input.
Proof.
  induction input as [|e input IH]; intros st t rest Hf H.
  - cbn [read_loop] in H. rewrite Hf in H. discriminate.
  - cbn [read_loop] in H. rewrite Hf in H. destruct e as [raw|]; [|discriminate].
    destruct (checksum_found (feed st (strip raw))) eqn:F.
    + rewrite (read_loop_done _ _ F) in H. injection H as <- <-.
      split; [now apply feed_found | cbn [List.length]; lia].
    + destruct (IH _ _ _ F H) as [B L]. split; [exact B | cbn [List.length]; lia].
Qed.

Lemma read_loop_interrupted_shorter input : forall st t rest,
  read_loop st input = Interrupted t rest ->
  List.length rest < List.length input.
Proof.
  induction input as [|e input IH]; intros st t rest H.
  - cbn [read_loop] in H. destruct (checksum_found st); discriminate.
  - cbn [read_loop] in H. destruct (checksum_found st); [discriminate|].
    destruct e as [raw|].
    + specialize (IH _ _ _ H). cbn [List.length]. lia.
    + injection H as _ <-. cbn [List.length]. lia.
Qed.

Lemma has_bang_count t : has_char "!" t = true -> 1 <= count_char "!" t.
Proof.
  induction t as [|c t IH]; cbn [has_char count_char]; [discriminate|].
  destruct (Ascii.eqb c "!"); [lia|]. cbn [orb]. intros H. specialize (IH H). lia.
Qed.

Lemma bang_second_piece t :
  has_char "!" t = true -> exists h, index (split t "!") 1 = Ok h.
Proof.
  intros H. destruct (cut_at_first_bang t (has_bang_count t H)) as (a & r & -> & Ha & _).
  rewrite (split_first_bang _ _ Ha). unfold split, index.
  destruct (split_from "!" 0 r) as [|h l] eqn:E.
  - now apply split_from_nonempty in E.
  - now exists h.
Qed.

Lemma calculated_checksum_ok t : exists c, calculated_checksum t = Ok c.
Proof.
  unfold calculated_checksum, split, index.
  destruct (split_from "!" 0 t) as [|b l] eqn:E.
  - now apply split_from_nonempty in E.
  - cbn [nth_error bind]. now eexists.
Qed.

Lemma iteration_shorter input msgs rest :
  iteration input = Published msgs rest ->
  List.length rest < List.length input.
Proof.
  unfold iteration. destruct (read_loop framer_init input) as [t r|t r|t] eqn:E;
    try discriminate.
  - destruct (process_telegram t); [|discriminate]. intros [= _ <-].
    now apply (read_loop_completed_bang input framer_init t r eq_refl E).
  - destruct (process_telegram t); [|discriminate]. intros [= _ <-].
    now apply (read_loop_interrupted_shorter _ _ _ _ E).
Qed.

Lemma driver_not_running fuel : forall input,
  List.length input < fuel -> forall r, snd (driver fuel input) <> Running r.
Proof.
  induction fuel as [|fuel IH]; intros input L r; [lia|].
  cbn [driver]. destruct (iteration input) as [e|msgs rest|t] eqn:E;
    try discriminate.
  pose proof (iteration_shorter _ _ _ E) as S.
  specialize (IH rest ltac:(lia) r).
  destruct (driver fuel rest) as [more f]. exact IH.
Qed.

Lemma driver_more_fuel fuel : forall k input,
  (forall r, snd (driver fuel input) <> Running r) ->
  driver (fuel + k) input = driver fuel input.
Proof.
  induction fuel as [|fuel IH]; intros k input H.
  - exfalso. now apply (H input).
  - cbn [driver Nat.add] in *.
    destruct (iteration input) as [e|msgs rest|t]; try reflexivity.
    rewrite (IH k rest); [reflexivity|].
    intros r. specialize (H r). now destruct (driver fuel rest).
Qed.

End Loop.

(** X3: a telegram the framing loop has completed contains an exclamation
    mark, so the checksum step finds its second piece: after a completed
    frame [IndexError] is never raised, and the computed checksum never
    raises at all. *)
Theorem completed_telegram_has_trailer (input rest : list read_event) (t : string) :
  read_loop framer_init input = Completed t rest ->
  has_char "!" t = true
  /\ given_checksum t <> Raise IndexError
  /\ exists c, calculated_checksum t = Ok c.
Proof.
  intros H.
  destruct (read_loop_completed_bang input framer_init t rest eq_refl H) as [B _].
  split; [exact B|]. split; [|apply calculated_checksum_ok].
  unfold given_checksum. destruct (bang_second_piece t B) as (h & ->).
  cbn [bind]. unfold int16_or_raise. destruct (int16 _); discriminate.
Qed.

Lemma completed_telegram_has_trailer_witness :
  has_char "!" ("/X" ++ CRLF ++ "!ZZ") = true
  /\ given_checksum ("/X" ++ CRLF ++ "!ZZ") <> Raise IndexError
  /\ exists c, calculated_checksum ("/X" ++ CRLF ++ "!ZZ") = Ok c.
Proof.
  apply (completed_telegram_has_trailer [Recv "/X"; Recv "!ZZ"; Recv "/Y"] [Recv "/Y"]).
  reflexivity.
Defined.

(** X4: every turn of the main loop that ends by publishing has taken at
    least one read from the stream, so on a stream of [n] reads the loop has
    ended (crashed, or waiting for more input) within [n + 1] turns, and
    further turns change nothing. *)
Theorem driver_settles (fuel : nat) (input : list read_event) :
  List.length input < fuel ->
  (forall msgs rest, iteration input = Published msgs rest ->
                     List.length rest < List.length input)
  /\ (forall r, snd (driver fuel input) <> Running r)
  /\ driver fuel input = driver (S (List.length input)) input.
Proof.
  intros L. split; [apply iteration_shorter|]. split.
  - now apply driver_not_running.
  - replace fuel with (S (List.length input) + (fuel - S (List.length input))) by lia.
    apply driver_more_fuel. apply driver_not_running. lia.
Qed.

Lemma driver_settles_witness :
  driver 9 [Recv "/X"; Recv "1-0:1.8.1(5)"; Recv "!0000"; Recv "/Y"]
  = driver 5 [Recv "/X"; Recv "1-0:1.8.1(5)"; Recv "!0000"; Recv "/Y"].
Proof.
  apply (driver_settles 9 [Recv "/X"; Recv "1-0:1.8.1(5)"; Recv "!0000"; Recv "/Y"]).
  cbn [List.length]. lia.
Defined.

(** ** From the lines read to the messages published *)

Section Turn.

Local Open Scope string_scope.

Lemma prefix_crlf c u :
  prefix CRLF (String c u) = true -> exists u', u = String LF u'.
Proof.
  unfold CRLF. cbn [prefix]. destruct (ascii_dec "013" c); [|discriminate].
  destruct u as [|d u']; cbn [prefix]; [discriminate|].
  destruct (ascii_dec "010" d) as [<-|]; [|discriminate]. now eexists.
Qed.

Lemma no_crlf_at c t rest :
  has_char LF (String c t) = false ->
  prefix CRLF (String c (t ++ CRLF ++ rest)) = false.
Proof.
  intros H. destruct (prefix CRLF _) eqn:P; [|reflexivity].
  apply prefix_crlf in P as (u' & E). cbn [has_char] in H.
  apply orb_false_iff in H as [_ H]. destruct t as [|d t'].
  - discriminate.
  - cbn [append] in E. injection E as -> _. cbn [has_char] in H.
    unfold LF in H. now rewrite Ascii.eqb_refl in H.
Qed.

(** A line without line feed, followed by CR LF, is the first piece. *)
Lemma split_line_crlf l rest :
  has_char LF l = false ->
  split (l ++ CRLF ++ rest) CRLF = l :: split rest CRLF.
Proof.
  unfold split. induction l as [|c t IH]; intros H.
  - change ("" ++ CRLF ++ rest) with (String "013" (String "010" rest)).
    cbn [split_from].
    replace (prefix CRLF (String "013" (String "010" rest))) with true
      by (symmetry; apply (prefix_append CRLF rest)).
    reflexivity.
  - cbn [append split_from]. rewrite (no_crlf_at _ _ _ H).
    cbn [has_char] in H. apply orb_false_iff in H as [_ H].
    now rewrite (IH H).
Qed.

Lemma split_no_lf s : has_char LF s = false -> split s CRLF = [s].
Proof.
  unfold split. induction s as [|c t IH]; intros H; [reflexivity|].
  cbn [split_from]. destruct (prefix CRLF (String c t)) eqn:P.
  - apply prefix_crlf in P as (u' & ->). cbn [has_char] in H.
    unfold LF in H. rewrite Ascii.eqb_refl, orb_true_r in H. discriminate.
  - cbn [has_char] in H. apply orb_false_iff in H as [_ H]. now rewrite (IH H).
Qed.

Lemma split_body_text ls tr :
  Forall (fun l => has_char LF l = false) ls ->
  has_char LF tr = false ->
  split (body_text ls ++ tr) CRLF = (filter truthy ls ++ [tr])%list.
Proof.
  intros H Htr. induction H as [|l ls Hl _ IH].
  - now apply split_no_lf.
  - rewrite body_text_cons. cbn [filter]. destruct (truthy l); [|exact IH].
    rewrite !append_assoc, (split_line_crlf _ _ Hl), IH. reflexivity.
Qed.

Lemma publish_line_trailer tr : is_trailer tr = true -> publish_line tr = [].
Proof.
  unfold is_trailer, startswith. destruct tr as [|c t]; [discriminate|].
  rewrite prefix_bang. intros E. apply Ascii.eqb_eq in E as ->. reflexivity.
Qed.


Lemma body_text_no_bang ls :
  Forall (fun l => has_char "!" l = false) ls ->
  has_char "!" (body_text ls) = false.
Proof.
  induction 1 as [|l ls Hl _ IH]; [reflexivity|].
  rewrite body_text_cons. destruct (truthy l); [|exact IH].
  now rewrite !has_char_app, Hl, IH.
Qed.

Lemma Forall_strip (P : string -> Prop) raws :
  Forall (fun r => P (strip r)) raws -> Forall P (map strip raws).
Proof. induction 1; cbn [map]; now constructor. Qed.

Lemma no_bang_lines_no_trailer raws :
  Forall (fun r => has_char "!" (strip r) = false) raws ->
  Forall (fun r => is_trailer (strip r) = false) raws.
Proof. induction 1; constructor; [now apply no_bang_no_trailer | assumption]. Qed.

End Turn.

(** X5: splitting a framed telegram on CR LF gives back the lines it was made
    of: the non-empty lines in front of the trailer, in order, and the
    trailer, provided no line has a line feed inside. *)
Theorem framed_lines_round_trip (lines : list string) (tr : string) :
  Forall (fun l => has_char LF l = false) lines ->
  has_char LF tr = false ->
  split (body_text lines ++ tr) CRLF = filter truthy lines ++ [tr].
Proof. apply split_body_text. Qed.

Lemma framed_lines_round_trip_witness :
  split (body_text ["/X"; ""; "1-0:1.8.1(5)"] ++ "!AB") CRLF
  = ["/X"; "1-0:1.8.1(5)"; "!AB"].
Proof.
  apply (framed_lines_round_trip ["/X"; ""; "1-0:1.8.1(5)"] "!AB").
  - repeat constructor.
  - reflexivity.
Defined.





(** X8: a read that raises is caught, and the checksum step then runs on what
    was read so far: when none of those lines has an exclamation mark the
    step raises [IndexError] and the process ends, whatever follows on the
    stream. *)
Theorem read_error_ends_process (pre : list string) (post : list read_event) :
  Forall (fun r => has_char "!" (strip r) = false) pre ->
  iteration (map Recv pre ++ ReadExn :: post) = Terminated IndexError.
Proof.
  intros Hpre. unfold iteration, framer_init.
  rewrite (read_loop_body pre "" _ (no_bang_lines_no_trailer _ Hpre)).
  cbn [read_loop checksum_found telegram append].
  unfold process_telegram, given_checksum.
  now rewrite (split_no_bang _ (body_text_no_bang _ (Forall_strip _ _ Hpre))).
Qed.

Lemma read_error_ends_process_witness :
  iteration (map Recv ["/X"; "1-0:1.8.1(5)"] ++ ReadExn :: [Recv "!0000"])
  = Terminated IndexError.
Proof.
  apply (read_error_ends_process ["/X"; "1-0:1.8.1(5)"] [Recv "!0000"]).
  repeat constructor.
Defined.

(** ** The CRC *)

Section CrcFacts.

Local Open Scope Z_scope.

Lemma mask16_ones : mask16 = Z.ones 16.
Proof. reflexivity. Qed.

Lemma table_range i : 0 <= table i < 65536.
Proof.
  unfold table, bytecrc_r. rewrite mask16_ones, Z.land_ones by lia.
  change (2 ^ 16) with 65536. apply Z.mod_pos_bound. lia.
Qed.

Lemma lxor_range n a b :
  0 <= n -> 0 <= a < 2 ^ n -> 0 <= b < 2 ^ n -> 0 <= Z.lxor a b < 2 ^ n.
Proof.
  intros Hn Ha Hb. split; [apply Z.lxor_nonneg; lia|].
  destruct (Z.eq_dec (Z.lxor a b) 0) as [->|N]; [lia|].
  assert (P : 0 < Z.lxor a b) by (pose proof (proj2 (Z.lxor_nonneg a b)); lia).
  assert (L : forall x, 0 <= x < 2 ^ n -> 0 < n -> Z.log2 x < n).
  { intros x Hx Hpos. destruct (Z.eq_dec x 0) as [->|]; [now rewrite Z.log2_nonpos by lia|].
    apply Z.log2_lt_pow2; lia. }
  assert (Hpos : 0 < n).
  { destruct (Z.eq_dec n 0) as [->|]; [|lia].
    change (2 ^ 0) with 1 in *. assert (a = 0) by lia. assert (b = 0) by lia.
    subst. now rewrite Z.lxor_0_l in N. }
  apply Z.log2_lt_pow2; [exact P|].
  pose proof (Z.log2_lxor a b ltac:(lia) ltac:(lia)).
  pose proof (L a Ha Hpos). pose proof (L b Hb Hpos). lia.
Qed.

Lemma shiftr8_range crc : 0 <= crc < 65536 -> 0 <= Z.shiftr crc 8 < 256.
Proof.
  intros H. rewrite Z.shiftr_div_pow2 by lia. change (2 ^ 8) with 256.
  split; [apply Z.div_pos; lia | apply Z.div_lt_upper_bound; lia].
Qed.

Lemma crc16r_range data : forall crc,
  0 <= crc < 65536 -> 0 <= crc16r data crc < 65536.
Proof.
  induction data as [|x data IH]; intros crc H; [exact H|].
  cbn [crc16r]. apply IH. apply (lxor_range 16); [lia | apply table_range |].
  pose proof (shiftr8_range crc H). change (2 ^ 16) with 65536. lia.
Qed.

Lemma crc16r_app a : forall b crc,
  crc16r (a ++ b) crc = crc16r b (crc16r a crc).
Proof. induction a as [|x a IH]; intros b crc; [reflexivity | apply IH]. Qed.

Lemma encode_utf8_app a b :
  encode_utf8 (a ++ b) = encode_utf8 a ++ encode_utf8 b.
Proof.
  induction a as [|c a IH]; [reflexivity|].
  cbn [append encode_utf8]. now rewrite IH, app_assoc.
Qed.

Lemma table_zero : table 0 = 0.
Proof. reflexivity. Qed.

Lemma land_byte x : 0 <= x < 256 -> Z.land x 255 = x.
Proof.
  intros H. change 255 with (Z.ones 8). rewrite Z.land_ones by lia.
  apply Z.mod_small. change (2 ^ 8) with 256. lia.
Qed.

Lemma shiftr8_byte x : 0 <= x < 256 -> Z.shiftr x 8 = 0.
Proof.
  intros H. rewrite Z.shiftr_div_pow2 by lia. apply Z.div_small.
  change (2 ^ 8) with 256. lia.
Qed.

Lemma crc16r_zero_byte data : crc16r (0 :: data) 0 = crc16r data 0.
Proof. reflexivity. Qed.

Lemma forall_from_true n f : forall v,
  forall_from n v f = true -> forall w, v <= w < v + Z.of_nat n -> f w = true.
Proof.
  induction n as [|n IH]; intros v H w Hw; [lia|].
  cbn [forall_from] in H. apply andb_true_iff in H as [H0 H1].
  destruct (Z.eq_dec w v) as [->|]; [exact H0 | apply (IH _ H1); lia].
Qed.

(** Eight shifts of a 16-bit register: the table entry of its low byte,
    combined with its high byte. *)
Lemma bytecrc_by_table v :
  0 <= v < 65536 ->
  bytecrc_loop 8 v = Z.lxor (table (Z.land v 255)) (Z.shiftr v 8).
Proof.
  intros H.
  assert (C : forall_from (Z.to_nat 65536) 0
                (fun v => bytecrc_loop 8 v
                          =? Z.lxor (table (Z.land v 255)) (Z.shiftr v 8)) = true)
    by (vm_compute; reflexivity).
  apply Z.eqb_eq. apply (forall_from_true _ _ _ C). lia.
Qed.

Lemma low_byte_lxor crc x :
  0 <= x < 256 -> Z.land (Z.lxor crc x) 255 = Z.lxor x (Z.land crc 255).
Proof.
  intros H. rewrite <- (land_byte x H) at 2.
  apply Z.bits_inj'. intros n Hn.
  rewrite !Z.land_spec, !Z.lxor_spec, !Z.land_spec.
  rewrite <- (land_byte x H) at 1. rewrite Z.land_spec.
  destruct (Z.testbit crc n), (Z.testbit x n), (Z.testbit 255 n); reflexivity.
Qed.

End CrcFacts.

(** X9: the checksum computed is always a 16-bit number, whatever the bytes
    are. *)
Theorem crc16_is_16_bit (data : list Z) : (0 <= crc16 data < 65536)%Z.
Proof. unfold crc16. apply crc16r_range. cbn. lia. Qed.

(** X10: the CRC can be taken piece by piece: the CRC of a text followed by
    another is the CRC of the second one started from the CRC of the first,
    so the checksum of a telegram may be folded over its lines. *)
Theorem crc16_of_appended_text (a b : string) :
  crc16 (encode_utf8 (a ++ b)) = crc16r (encode_utf8 b) (crc16 (encode_utf8 a)).
Proof. unfold crc16. now rewrite encode_utf8_app, crc16r_app. Qed.

(** X11: the CRC followed by itself checks to zero: appending the low byte
    and then the high byte of the CRC of some data to that data gives data
    whose CRC is 0. *)
Theorem crc16_residue_is_zero (data : list Z) :
  crc16 (data ++ [Z.land (crc16 data) 255; Z.shiftr (crc16 data) 8]) = 0%Z.
Proof.
  unfold crc16. change (Z.land 0 mask16) with 0%Z. rewrite crc16r_app.
  assert (R : (0 <= crc16r data 0 < 65536)%Z) by (apply crc16r_range; lia).
  set (c := crc16r data 0) in *.
  pose proof (shiftr8_range c R) as Hh.
  cbn [crc16r]. rewrite Z.lxor_nilpotent, table_zero, Z.lxor_0_l.
  rewrite (land_byte _ Hh), Z.lxor_nilpotent, table_zero, Z.lxor_0_l.
  now apply shiftr8_byte.
Qed.

(** X12: zero bytes in front are not seen by the CRC, and so a NUL character
    in front of a telegram does not change the checksum the script
    computes. *)
Theorem leading_nul_keeps_checksum (n : nat) (data : list Z) (t : string) :
  crc16 (repeat 0%Z n ++ data) = crc16 data
  /\ calculated_checksum (String "000" t) = calculated_checksum t.
Proof.
  split.
  - unfold crc16. change (Z.land 0 mask16) with 0%Z.
    induction n as [|n IH]; [reflexivity|].
    cbn [repeat app]. now rewrite crc16r_zero_byte.
  - unfold calculated_checksum, split. cbn [split_from].
    rewrite prefix_bang. change (Ascii.eqb "000" "!") with false.
    destruct (split_from "!" 0 t) as [|p ps] eqn:E.
    + now apply split_from_nonempty in E.
    + cbn [index nth_error bind]. reflexivity.
Qed.

(** X13: one step of the table-driven CRC is the textbook step of the
    reflected CRC16 with polynomial [0xA001]: the byte is xored into the
    register and the register is shifted right eight times, the polynomial
    being xored in each time a one falls off. *)
Theorem table_step_is_bitwise_step (crc x : Z) :
  (0 <= crc < 65536)%Z -> (0 <= x < 256)%Z ->
  Z.lxor (table (Z.lxor x (Z.land crc 0xFF))) (Z.shiftr crc 8)
  = bytecrc_loop 8 (Z.lxor crc x)
  /\ poly_r = 0xA001%Z.
Proof.
  intros Hc Hx. split; [|reflexivity].
  assert (R : (0 <= Z.lxor crc x < 65536)%Z).
  { apply (lxor_range 16); change (2 ^ 16)%Z with 65536%Z; lia. }
  rewrite (bytecrc_by_table _ R), (low_byte_lxor crc x Hx).
  now rewrite Z.shiftr_lxor, (shiftr8_byte x Hx), Z.lxor_0_r.
Qed.

Lemma table_step_is_bitwise_step_witness :
  Z.lxor (table (Z.lxor 47 (Z.land 18297 0xFF))) (Z.shiftr 18297 8)
  = bytecrc_loop 8 (Z.lxor 18297 47)
  /\ poly_r = 0xA001%Z.
Proof. apply (table_step_is_bitwise_step 18297 47); lia. Defined.

(** ** Reading the checksum and encoding the text *)

Section IntFacts.

Local Open Scope Z_scope.

Lemma hex_digit_range c d : hex_digit c = Some d -> 0 <= d < 16.
Proof.
  unfold hex_digit. set (n := Z.of_N (N_of_ascii c)).
  destruct ((48 <=? n) && (n <=? 57)) eqn:E1;
    [|destruct ((97 <=? n) && (n <=? 102)) eqn:E2;
      [|destruct ((65 <=? n) && (n <=? 70)) eqn:E3; [|discriminate]]].
  all: intros [= <-].
  all: match goal with H : _ && _ = true |- _ =>
         apply andb_true_iff in H as [?%Z.leb_le ?%Z.leb_le] end; lia.
Qed.

Lemma scan_digits_bound s : forall p acc v rest,
  0 <= acc ->
  scan_digits s p acc = Some (v, rest) ->
  0 <= v < (acc + 1) * 16 ^ Z.of_nat (String.length s).
Proof.
  induction s as [|c t IH]; intros p acc v rest Ha H.
  - cbn [scan_digits] in H. destruct p; [discriminate|]. injection H as <- _.
    cbn. lia.
  - cbn [String.length]. rewrite Nat2Z.inj_succ, Z.pow_succ_r by lia.
    assert (P : 0 < 16 ^ Z.of_nat (String.length t)) by (apply Z.pow_pos_nonneg; lia).
    set (q := 16 ^ Z.of_nat (String.length t)) in *.
    replace ((acc + 1) * (16 * q)) with ((16 * acc + 16) * q) by ring.
    cbn [scan_digits] in H. destruct (Ascii.eqb c "_").
    + destruct p; [discriminate|]. specialize (IH _ _ _ _ Ha H).
      assert ((acc + 1) * q <= (16 * acc + 16) * q)
        by (apply Z.mul_le_mono_nonneg_r; lia).
      lia.
    + destruct (hex_digit c) as [d|] eqn:D.
      * pose proof (hex_digit_range _ _ D).
        assert (Hacc : 0 <= 16 * acc + d) by lia.
        specialize (IH _ _ _ _ Hacc H).
        assert ((16 * acc + d + 1) * q <= (16 * acc + 16) * q)
          by (apply Z.mul_le_mono_nonneg_r; lia).
        lia.
      * destruct p; [discriminate|]. injection H as <- _.
        assert ((16 * acc + 16) * 1 <= (16 * acc + 16) * q)
          by (apply Z.mul_le_mono_nonneg_l; lia).
        lia.
Qed.

Lemma strip_prefix_0x h :
  strip_prefix ("0x" ++ h)
  = match h with
    | String c t => if Ascii.eqb c "_" then t else h
    | EmptyString => h
    end.
Proof.
  destruct h as [|c t]; [reflexivity|].
  destruct c as [[] [] [] [] [] [] [] []]; reflexivity.
Qed.

Lemma int16_0x h :
  int16 ("0x" ++ h)
  = let s3 := strip_prefix ("0x" ++ h) in
    if starts_with_digit s3 then
      match scan_digits s3 false 0 with
      | Some (v, rest) =>
          match skip_space rest with
          | EmptyString => Some v
          | String _ _ => None
          end
      | None => None
      end
    else None.
Proof. reflexivity. Qed.

Lemma int16_0x_range h v :
  int16 ("0x" ++ h) = Some v -> 0 <= v < 16 ^ Z.of_nat (String.length h).
Proof.
  rewrite int16_0x, strip_prefix_0x. cbv zeta.
  set (s3 := match h with String c t => if Ascii.eqb c "_" then t else h | EmptyString => h end).
  assert (L : (String.length s3 <= String.length h)%nat).
  { subst s3. destruct h as [|c t]; [apply le_n|].
    destruct (Ascii.eqb c "_"); cbn [String.length]; lia. }
  destruct (starts_with_digit s3); [|discriminate].
  destruct (scan_digits s3 false 0) as [[w rest]|] eqn:E; [|discriminate].
  destruct (skip_space rest); [|discriminate]. intros [= <-].
  pose proof (scan_digits_bound s3 false 0 w rest ltac:(lia) E) as B.
  assert (16 ^ Z.of_nat (String.length s3) <= 16 ^ Z.of_nat (String.length h))
    by (apply Z.pow_le_mono_r; lia).
  lia.
Qed.





Lemma encode_char_bytes c :
  Forall (fun b => 0 <= b < 256) (encode_char c)
  /\ (1 <= List.length (encode_char c) <= 2)%nat.
Proof.
  destruct c as [[] [] [] [] [] [] [] []]; cbn;
    (split; [repeat constructor; lia | lia]).
Qed.

End IntFacts.

(** X14: the checksum read from a telegram is never negative, and it is
    below 16 to the power of the length of the text it is read from: a
    trailer of four characters gives a 16-bit number, a longer one may give
    more. *)
Theorem given_checksum_range (t : string) (g : Z) :
  given_checksum t = Ok g ->
  exists h,
    index (split t "!") 1 = Ok h
    /\ (0 <= g < 16 ^ Z.of_nat (String.length h))%Z.
Proof.
  unfold given_checksum. destruct (index (split t "!") 1) as [h|e]; [|discriminate].
  cbn [bind]. unfold int16_or_raise.
  destruct (int16 ("0x" ++ h)) as [v|] eqn:E; [|discriminate].
  intros [= <-]. exists h. split; [reflexivity | now apply int16_0x_range].
Qed.

Lemma given_checksum_range_witness :
  exists h,
    index (split ("/X" ++ CRLF ++ "!fA3c") "!") 1 = Ok h
    /\ (0 <= 64060 < 16 ^ Z.of_nat (String.length h))%Z.
Proof.
  apply (given_checksum_range ("/X" ++ CRLF ++ "!fA3c") 64060). reflexivity.
Defined.



(** X16: the encoding of a text is a list of bytes, one or two for each
    character, and the encoding of two texts put together is the two
    encodings put together. *)
Theorem encode_utf8_gives_bytes (s s' : string) :
  Forall (fun b => (0 <= b < 256)%Z) (encode_utf8 s)
  /\ String.length s <= List.length (encode_utf8 s) <= 2 * String.length s
  /\ encode_utf8 (s ++ s') = encode_utf8 s ++ encode_utf8 s'.
Proof.
  split; [|split; [|apply encode_utf8_app]].
  - induction s as [|c t IH]; [constructor|].
    cbn [encode_utf8]. apply Forall_app. split; [apply encode_char_bytes | exact IH].
  - induction s as [|c t IH]; [cbn; lia|].
    cbn [encode_utf8 String.length]. rewrite length_app.
    pose proof (proj2 (encode_char_bytes c)). lia.
Qed.

(** ** Decoded lines and their topics *)

Section Topics.

Local Open Scope string_scope.

Lemma table_paths_unique k1 k2 path :
  In (k1, path) list_of_interesting_codes ->
  In (k2, path) list_of_interesting_codes ->
  k1 = k2.
Proof.
  intros H1 H2.
  assert (T : forallb (fun a => forallb (fun b =>
                implb (String.eqb (snd a) (snd b)) (String.eqb (fst a) (fst b)))
                list_of_interesting_codes) list_of_interesting_codes = true)
    by (vm_compute; reflexivity).
  rewrite forallb_forall in T. specialize (T _ H1).
  rewrite forallb_forall in T. specialize (T _ H2).
  cbn [fst snd] in T. rewrite String.eqb_refl in T. now apply String.eqb_eq.
Qed.

Lemma table_keys_unique k path1 path2 :
  In (k, path1) list_of_interesting_codes ->
  In (k, path2) list_of_interesting_codes ->
  path1 = path2.
Proof.
  intros H1 H2.
  assert (T : forallb (fun a => forallb (fun b =>
                implb (String.eqb (fst a) (fst b)) (String.eqb (snd a) (snd b)))
                list_of_interesting_codes) list_of_interesting_codes = true)
    by (vm_compute; reflexivity).
  rewrite forallb_forall in T. specialize (T _ H1).
  rewrite forallb_forall in T. specialize (T _ H2).
  cbn [fst snd] in T. rewrite String.eqb_refl in T. now apply String.eqb_eq.
Qed.

Lemma fallback_is_no_path k path b :
  In (k, path) list_of_interesting_codes -> path <> "unidentified_code/" ++ b.
Proof.
  intros H E. apply no_path_unidentified in H.
  rewrite E, prefix_append in H. discriminate.
Qed.

End Topics.

(** X17: what holds of every line the script decodes: the identifier is the
    start of the line, and the value is the rest of the line with each
    parenthesis turned into a blank and the white space at both ends taken
    away, so that the value has no parenthesis and neither starts nor ends
    with white space. *)
Theorem decoded_point_shape (line obis_code value : string) :
  decode_line line = Some (obis_code, value) ->
  (exists rest,
      line = (obis_code ++ rest)%string
      /\ value = strip (replace ")" " " (replace "(" " " rest)))
  /\ has_char "(" value = false /\ has_char ")" value = false
  /\ lstrip value = value /\ rstrip value = value.
Proof. apply decode_line_point. Qed.

Lemma decoded_point_shape_witness :
  (exists rest,
      "0-1:24.2.1(101209112500W)(12785.123*m3)"
      = ("0-1:24.2.1" ++ rest)%string
      /\ "101209112500W  12785.123*m3"
         = strip (replace ")" " " (replace "(" " " rest)))
  /\ has_char "(" "101209112500W  12785.123*m3" = false
  /\ has_char ")" "101209112500W  12785.123*m3" = false
  /\ lstrip "101209112500W  12785.123*m3" = "101209112500W  12785.123*m3"
  /\ rstrip "101209112500W  12785.123*m3" = "101209112500W  12785.123*m3".
Proof.
  apply (decoded_point_shape "0-1:24.2.1(101209112500W)(12785.123*m3)").
  reflexivity.
Defined.

(** X18: a line that starts with an identifier as five groups of one or more
    digits, separated by a dash, a colon and two dots, is always decoded, and
    to exactly that identifier. *)
Theorem identifier_lines_are_decoded (line obis_code : string) :
  Re.spec_match_obis line = Some obis_code ->
  exists value, decode_line line = Some (obis_code, value).
Proof. apply decode_line_spec_match. Qed.

Lemma identifier_lines_are_decoded_witness :
  exists value,
    decode_line "1-0:32.36.0(00000)" = Some ("1-0:32.36.0", value).
Proof.
  apply (identifier_lines_are_decoded "1-0:32.36.0(00000)"). reflexivity.
Defined.

(** X19: only a line that starts with a digit or a dash is decoded.  The
    empty line and the trailer give no message, and neither does the
    identification line, which starts with a slash. *)
Theorem only_digit_or_dash_lines_decode (line : string) :
  (decode_line line <> None ->
   exists c t, line = String c t /\ (Re.is_digit c = true \/ c = "-"%char))
  /\ (is_trailer line = true -> publish_line line = [])
  /\ (startswith line "/" = true -> publish_line line = [])
  /\ publish_line "" = [].
Proof.
  assert (D : decode_line line <> None ->
              exists c t, line = String c t /\ (Re.is_digit c = true \/ c = "-"%char)).
  { unfold decode_line, Re.match_obis.
    destruct (Re.match_here Re.obis_pattern line) as [n|] eqn:E; [|congruence].
    intros _. destruct line as [|c t]; [discriminate|].
    exists c, t. split; [reflexivity|].
    unfold Re.obis_pattern in E. rewrite match_digits_cons in E.
    destruct (Re.is_digit c); [now left|]. right.
    cbn [Re.match_here] in E.
    destruct (Ascii.eqb c "-") eqn:C; [now apply Ascii.eqb_eq | discriminate]. }
  split; [exact D|]. split; [apply publish_line_trailer|]. split; [|reflexivity].
  intros S. unfold publish_line. destruct (decode_line line) as [[o v]|] eqn:E;
    [|reflexivity].
  destruct D as (c & t & -> & [H|H]); [congruence| |].
  - unfold startswith in S. cbn [prefix] in S.
    destruct (ascii_dec "/" c) as [<-|]; discriminate.
  - subst c. discriminate.
Qed.

Lemma only_digit_or_dash_lines_decode_witness :
  publish_line "/ISK5\2M550T-1012" = [] /\ publish_line "!0000" = [].
Proof.
  split.
  - apply (proj1 (proj2 (proj2 (only_digit_or_dash_lines_decode "/ISK5\2M550T-1012")))).
    reflexivity.
  - apply (proj1 (proj2 (only_digit_or_dash_lines_decode "!0000"))). reflexivity.
Defined.

(** X20: two different identifiers are never published on the same topic,
    be they in the table or not. *)
Theorem distinct_identifiers_distinct_topics (a b : string) :
  a <> b -> publish_topic a <> publish_topic b.
Proof.
  intros N E. rewrite !publish_topic_route in E. apply append_inj_l in E.
  unfold route in E.
  destruct (dict_get list_of_interesting_codes a) as [pa|] eqn:A;
    destruct (dict_get list_of_interesting_codes b) as [pb|] eqn:B.
  - subst pb. apply dict_get_In in A, B. now apply N, (table_paths_unique a b pa).
  - apply dict_get_In in A. now apply (fallback_is_no_path _ _ b A).
  - apply dict_get_In in B. symmetry in E. now apply (fallback_is_no_path _ _ a B).
  - now apply append_inj_l in E.
Qed.

Lemma distinct_identifiers_distinct_topics_witness :
  publish_topic "1-0:1.8.1" <> publish_topic "1-0:1.8.2".
Proof.
  apply (distinct_identifiers_distinct_topics "1-0:1.8.1" "1-0:1.8.2").
  discriminate.
Defined.

(** X21: no key of the table is written twice, so the lookup finds every
    entry of the table: an identifier and a path are an entry exactly when
    the lookup of the identifier gives the path. *)
Theorem lookup_finds_every_entry (k path : string) :
  In (k, path) list_of_interesting_codes
  <-> dict_get list_of_interesting_codes k = Some path.
Proof.
  split; [|apply dict_get_In].
  intros H.
  assert (K : In k (map fst list_of_interesting_codes))
    by (apply in_map_iff; now exists (k, path)).
  apply dict_get_key in K as (v & Hv).
  rewrite Hv. f_equal. apply (table_keys_unique k); [now apply dict_get_In | exact H].
Qed.

Lemma lookup_finds_every_entry_witness :
  dict_get list_of_interesting_codes "0-1:24.2.1" = Some "gas/cumulative/consumed".
Proof.
  apply (proj1 (lookup_finds_every_entry "0-1:24.2.1" "gas/cumulative/consumed")).
  vm_compute. tauto.
Defined.
